(** * Vulkan [Context]: command batching, descriptor binding and deferred cleanup

    A shallow embedding of [aten/src/ATen/native/vulkan/api/Context.h].

    The header defines the class [Context] (the shared command buffer, the
    submission counter, the two cleanup lists and their mutexes), the two
    RAII wrappers [UniformParamsBuffer] and [StorageBuffer], the pack
    expansion [detail::bind], the [record_copy] template with its four
    explicit specialisations, and the two templated entry points
    [Context::submit_copy] and [Context::submit_compute_job].

    Member functions are state transformers on a [Context] record.  The
    record carries, next to the C++ members, three observation fields: what
    was handed to the [VkQueue], which device allocations were released, and
    the sequence of effects (mutex operations, command-buffer operations,
    queue submissions) in program order. *)

From stdpp Require Import base numbers list gmap strings.

Local Open Scope Z_scope.

(** ** Handles and machine integers *)

(** Vulkan handles are opaque integers; [VK_NULL_HANDLE] is zero. *)
Definition VK_NULL_HANDLE : Z := 0.
Definition VkFence : Type := Z.

(** [uint32_t] arithmetic wraps modulo [2^32]. *)
Definition UINT32_MAX : Z := 2 ^ 32 - 1.
Definition wrap_uint32 (z : Z) : Z := z mod 2 ^ 32.
Definition is_uint32 (z : Z) : Prop := 0 <= z <= UINT32_MAX.

Module utils.

(** [utils::uvec3]: three [uint32_t] components, read as [data[0u]],
    [data[1u]], [data[2u]]. *)
Record uvec3 : Type := mk_uvec3 { data0 : Z; data1 : Z; data2 : Z }.

Definition data (v : uvec3) (i : nat) : Z :=
  match i with
  | O => data0 v
  | S O => data1 v
  | _ => data2 v
  end.

(** Modelled from the spec: [utils::div_up] (Utils.h, reached through
    Common.h).  The specification describes it as the quotient of the
    extent by the tile size, rounded up. *)
Definition div_up (numerator denominator : Z) : Z :=
  numerator / denominator
  + (if numerator mod denominator =? 0 then 0 else 1).

End utils.

Import utils.

(** ** Collaborator types *)

(** Modelled from the spec: [VulkanBuffer] and [VulkanImage] (Resource.h)
    each own one device allocation, identified by its handle.  They convert
    to [bool] as "handle is not null"; moving out of one leaves a null
    handle behind; the destructor releases the allocation of a non-null
    handle. *)
Record VulkanBuffer : Type := mk_buffer { buffer_handle : Z }.
Record VulkanImage : Type := mk_image { image_handle : Z }.

Definition VulkanBuffer_bool (b : VulkanBuffer) : bool :=
  negb (buffer_handle b =? VK_NULL_HANDLE).
Definition VulkanImage_bool (i : VulkanImage) : bool :=
  negb (image_handle i =? VK_NULL_HANDLE).

Definition moved_from_buffer : VulkanBuffer := mk_buffer VK_NULL_HANDLE.
Definition moved_from_image : VulkanImage := mk_image VK_NULL_HANDLE.

(** A bindable or copyable resource: the two classes the header
    distinguishes. *)
Inductive Resource : Type :=
| ResBuffer (b : VulkanBuffer)
| ResImage (i : VulkanImage).

(** A device allocation, named by class and handle. *)
Inductive Allocation : Type :=
| AllocBuffer (h : Z)
| AllocImage (h : Z).

Record PipelineBarrier : Type :=
  mk_barrier { barrier_src_stage : Z; barrier_dst_stage : Z }.

(** [ShaderSource]: the header reads [kernel_name] and [out_tile_size]. *)
Record ShaderSource : Type :=
  mk_shader { kernel_name : string; out_tile_size : uvec3 }.

(** Modelled from the spec: [DescriptorSet] (Descriptor.h).  [bind(idx, x)]
    attaches [x] to binding slot [idx]; the calls are kept in the order they
    were made, next to the resulting slot table. *)
Record DescriptorSet : Type :=
  mk_descriptor_set {
    bind_calls : list (nat * Resource);
    bound : gmap nat Resource
  }.

Definition empty_descriptor_set : DescriptorSet := mk_descriptor_set [] ∅.

Definition DescriptorSet_bind (ds : DescriptorSet) (idx : nat) (x : Resource)
  : DescriptorSet :=
  mk_descriptor_set (bind_calls ds ++ [(idx, x)]) (<[idx := x]> (bound ds)).

(** What [CommandBuffer]'s recording methods append. *)
Inductive Command : Type :=
| CmdInsertBarrier (b : PipelineBarrier)
| CmdCopyBufferToBuffer (s d : VulkanBuffer) (range so do : uvec3)
| CmdCopyTextureToTexture (s d : VulkanImage) (range so do : uvec3)
| CmdCopyTextureToBuffer (s : VulkanImage) (d : VulkanBuffer)
    (range so do : uvec3)
| CmdCopyBufferToTexture (s : VulkanBuffer) (d : VulkanImage)
    (range so do : uvec3)
| CmdBindPipeline (shader : ShaderSource) (local_work_group_size : uvec3)
| CmdDispatch (ds : DescriptorSet) (global_work_group : uvec3).

(** The payload of a recorded operation: one copy or one dispatch. *)
Definition is_payload (c : Command) : bool :=
  match c with
  | CmdInsertBarrier _ | CmdBindPipeline _ _ => false
  | _ => true
  end.

(** Modelled from the spec: [CommandBuffer] and [CommandPool] (Command.h).
    A command buffer is unopened when it leaves the pool, recording after
    [begin], submitted once handed to the queue.  It converts to [bool] as
    "handle is not null"; the default-constructed buffer is null. *)
Inductive CommandBufferState : Type :=
| Unopened | Recording | Ended | Submitted.

Record CommandBuffer : Type :=
  mk_cmd {
    cmd_handle : Z;
    cmd_state : CommandBufferState;
    cmd_recorded : list Command
  }.

Definition null_cmd : CommandBuffer := mk_cmd VK_NULL_HANDLE Unopened [].

Definition CommandBuffer_bool (c : CommandBuffer) : bool :=
  negb (cmd_handle c =? VK_NULL_HANDLE).

Definition CommandBuffer_begin (c : CommandBuffer) : CommandBuffer :=
  mk_cmd (cmd_handle c) Recording (cmd_recorded c).

Definition CommandBuffer_end (c : CommandBuffer) : CommandBuffer :=
  mk_cmd (cmd_handle c) Ended (cmd_recorded c).

Definition CommandBuffer_submitted (c : CommandBuffer) : CommandBuffer :=
  mk_cmd (cmd_handle c) Submitted (cmd_recorded c).

Definition CommandBuffer_append (c : CommandBuffer) (x : Command)
  : CommandBuffer :=
  mk_cmd (cmd_handle c) (cmd_state c) (cmd_recorded c ++ [x]).

Definition is_recording (c : CommandBuffer) : bool :=
  match cmd_state c with Recording => true | _ => false end.

(** The pool hands out buffers with handles 1, 2, 3, ... *)
Record CommandPool : Type := mk_pool { pool_in_use : nat }.

Definition get_new_cmd (p : CommandPool) : CommandPool * CommandBuffer :=
  (mk_pool (S (pool_in_use p)),
   mk_cmd (Z.of_nat (S (pool_in_use p))) Unopened []).

(** ** Observable effects *)

Inductive Mutex : Type :=
| cmd_mutex_ | buffer_clearlist_mutex_ | image_clearlist_mutex_.

Inductive Event : Type :=
| EvLock (m : Mutex)
| EvUnlock (m : Mutex)
| EvBegin (cmd : Z)
| EvRecord (cmd : Z) (c : Command)
| EvEnd (cmd : Z)
| EvQueueSubmit (cmd : Z) (fence : VkFence)
| EvEmplace (a : Allocation)
| EvRelease (a : Allocation).

(** ** The context *)

Record ContextConfig : Type := mk_config { cmdSubmitFrequency : Z }.

Record Context : Type :=
  mk_context {
    config_ : ContextConfig;
    command_pool_ : CommandPool;
    cmd_ : CommandBuffer;
    submit_count_ : Z;
    buffers_to_clear_ : list VulkanBuffer;
    images_to_clear_ : list VulkanImage;
    (* observation *)
    queue_ : list (CommandBuffer * VkFence);
    released_ : list Allocation;
    trace_ : list Event
  }.

Definition with_pool_cmd (p : CommandPool) (c : CommandBuffer) (ctx : Context)
  : Context :=
  mk_context (config_ ctx) p c (submit_count_ ctx) (buffers_to_clear_ ctx)
    (images_to_clear_ ctx) (queue_ ctx) (released_ ctx) (trace_ ctx).

Definition with_cmd (c : CommandBuffer) (ctx : Context) : Context :=
  with_pool_cmd (command_pool_ ctx) c ctx.

Definition with_submit_count (n : Z) (ctx : Context) : Context :=
  mk_context (config_ ctx) (command_pool_ ctx) (cmd_ ctx) n
    (buffers_to_clear_ ctx) (images_to_clear_ ctx) (queue_ ctx)
    (released_ ctx) (trace_ ctx).

Definition with_buffers_to_clear (l : list VulkanBuffer) (ctx : Context)
  : Context :=
  mk_context (config_ ctx) (command_pool_ ctx) (cmd_ ctx) (submit_count_ ctx)
    l (images_to_clear_ ctx) (queue_ ctx) (released_ ctx) (trace_ ctx).

Definition with_images_to_clear (l : list VulkanImage) (ctx : Context)
  : Context :=
  mk_context (config_ ctx) (command_pool_ ctx) (cmd_ ctx) (submit_count_ ctx)
    (buffers_to_clear_ ctx) l (queue_ ctx) (released_ ctx) (trace_ ctx).

Definition with_queue (q : list (CommandBuffer * VkFence)) (ctx : Context)
  : Context :=
  mk_context (config_ ctx) (command_pool_ ctx) (cmd_ ctx) (submit_count_ ctx)
    (buffers_to_clear_ ctx) (images_to_clear_ ctx) q (released_ ctx)
    (trace_ ctx).

Definition with_released (r : list Allocation) (ctx : Context) : Context :=
  mk_context (config_ ctx) (command_pool_ ctx) (cmd_ ctx) (submit_count_ ctx)
    (buffers_to_clear_ ctx) (images_to_clear_ ctx) (queue_ ctx) r
    (trace_ ctx).

Definition emit (es : list Event) (ctx : Context) : Context :=
  mk_context (config_ ctx) (command_pool_ ctx) (cmd_ ctx) (submit_count_ ctx)
    (buffers_to_clear_ ctx) (images_to_clear_ ctx) (queue_ ctx)
    (released_ ctx) (trace_ ctx ++ es).

(** Modelled from the spec: the constructor (Context.cpp).  A fresh context
    has no command buffer, a zero counter and empty cleanup lists. *)
Definition new_context (config : ContextConfig) : Context :=
  mk_context config (mk_pool 0) null_cmd 0 [] [] [] [] [].

(** *** Memory management *)

(** [std::lock_guard] / [std::unique_lock] on a mutex. *)
Definition lock (m : Mutex) : Context -> Context := emit [EvLock m].
Definition unlock (m : Mutex) : Context -> Context := emit [EvUnlock m].

(** [register_buffer_cleanup(VulkanBuffer& buffer)]: the argument is moved
    into the list, so the caller's object is returned in its moved-from
    state. *)
Definition register_buffer_cleanup (buffer : VulkanBuffer) (ctx : Context)
  : Context * VulkanBuffer :=
  let ctx := lock buffer_clearlist_mutex_ ctx in
  let ctx := with_buffers_to_clear (buffers_to_clear_ ctx ++ [buffer]) ctx in
  let ctx := emit [EvEmplace (AllocBuffer (buffer_handle buffer))] ctx in
  let ctx := unlock buffer_clearlist_mutex_ ctx in
  (ctx, moved_from_buffer).

Definition register_image_cleanup (image : VulkanImage) (ctx : Context)
  : Context * VulkanImage :=
  let ctx := lock image_clearlist_mutex_ ctx in
  let ctx := with_images_to_clear (images_to_clear_ ctx ++ [image]) ctx in
  let ctx := emit [EvEmplace (AllocImage (image_handle image))] ctx in
  let ctx := unlock image_clearlist_mutex_ ctx in
  (ctx, moved_from_image).

(** Destructors of the two resource classes. *)
Definition VulkanBuffer_destroy (b : VulkanBuffer) (ctx : Context) : Context :=
  if VulkanBuffer_bool b then
    emit [EvRelease (AllocBuffer (buffer_handle b))]
      (with_released (released_ ctx ++ [AllocBuffer (buffer_handle b)]) ctx)
  else ctx.

Definition VulkanImage_destroy (i : VulkanImage) (ctx : Context) : Context :=
  if VulkanImage_bool i then
    emit [EvRelease (AllocImage (image_handle i))]
      (with_released (released_ ctx ++ [AllocImage (image_handle i)]) ctx)
  else ctx.

(** *** The shared command buffer *)

Definition set_cmd (ctx : Context) : Context :=
  if negb (CommandBuffer_bool (cmd_ ctx)) then
    let '(pool, c) := get_new_cmd (command_pool_ ctx) in
    let ctx := with_pool_cmd pool c ctx in
    let ctx := with_cmd (CommandBuffer_begin (cmd_ ctx)) ctx in
    emit [EvBegin (cmd_handle (cmd_ ctx))] ctx
  else ctx.

(** A recording method called on [cmd_]. *)
Definition record (x : Command) (ctx : Context) : Context :=
  emit [EvRecord (cmd_handle (cmd_ ctx)) x]
    (with_cmd (CommandBuffer_append (cmd_ ctx) x) ctx).

(** Modelled from the spec: [submit_cmd_to_gpu] (Context.cpp) ends
    recording, hands the command buffer to the queue together with the
    optional fence, resets the counter to zero and leaves the context ready
    to open a new command buffer on next use.  The specification speaks of
    the open command buffer only; without one there is nothing to hand
    over and the context is left as it is (both callers in the header run
    [set_cmd] first). *)
Definition submit_cmd_to_gpu (fence_handle : VkFence) (ctx : Context)
  : Context :=
  if CommandBuffer_bool (cmd_ ctx) then
    let c := CommandBuffer_end (cmd_ ctx) in
    let ctx := emit [EvEnd (cmd_handle c)] ctx in
    let ctx :=
      with_queue (queue_ ctx ++ [(CommandBuffer_submitted c, fence_handle)])
        ctx in
    let ctx := emit [EvQueueSubmit (cmd_handle c) fence_handle] ctx in
    let ctx := with_submit_count 0 ctx in
    with_cmd null_cmd ctx
  else ctx.

(** Modelled from the spec: [flush] (Context.cpp) forces a submission of
    any pending work, then drains both cleanup queues, releasing every
    entry. *)
Definition flush (ctx : Context) : Context :=
  let ctx := submit_cmd_to_gpu VK_NULL_HANDLE ctx in
  let ctx := lock buffer_clearlist_mutex_ ctx in
  let ctx := lock image_clearlist_mutex_ ctx in
  let ctx := foldl (fun c b => VulkanBuffer_destroy b c) ctx
               (buffers_to_clear_ ctx) in
  let ctx := with_buffers_to_clear [] ctx in
  let ctx := foldl (fun c i => VulkanImage_destroy i c) ctx
               (images_to_clear_ ctx) in
  let ctx := with_images_to_clear [] ctx in
  let ctx := unlock image_clearlist_mutex_ ctx in
  unlock buffer_clearlist_mutex_ ctx.

(** ** Parameter and storage buffer wrappers *)

(** Both wrappers hold [context_p_], a pointer to the owning context; the
    owning context is the [Context] the destructor is run on. *)
Record UniformParamsBuffer : Type :=
  mk_params_buffer { params_vulkan_buffer_ : VulkanBuffer }.

Record StorageBuffer : Type :=
  mk_storage_buffer { numel_ : Z; storage_vulkan_buffer_ : VulkanBuffer }.

(** The special member functions the two classes declare. *)
Inductive SpecialMember : Type :=
| CopyConstructor | CopyAssignment | MoveConstructor | MoveAssignment.

Inductive Declared : Type := Deleted | Defaulted.

Definition UniformParamsBuffer_member (m : SpecialMember) : Declared :=
  match m with
  | CopyConstructor | CopyAssignment => Deleted
  | MoveConstructor | MoveAssignment => Defaulted
  end.


(** [UniformParamsBuffer(UniformParamsBuffer&&) = default]: member-wise
    move.  Returns the new object and what is left of the old one. *)
Definition UniformParamsBuffer_move (other : UniformParamsBuffer)
  : UniformParamsBuffer * UniformParamsBuffer :=
  (mk_params_buffer (params_vulkan_buffer_ other),
   mk_params_buffer moved_from_buffer).



(** [~UniformParamsBuffer()]: the body, then the destructor of the member
    [vulkan_buffer_]. *)
Definition UniformParamsBuffer_destroy (w : UniformParamsBuffer)
  (ctx : Context) : Context :=
  let '(ctx, vulkan_buffer_) :=
    if VulkanBuffer_bool (params_vulkan_buffer_ w)
    then register_buffer_cleanup (params_vulkan_buffer_ w) ctx
    else (ctx, params_vulkan_buffer_ w) in
  VulkanBuffer_destroy vulkan_buffer_ ctx.

(** [~StorageBuffer()]. *)
Definition StorageBuffer_destroy (w : StorageBuffer) (ctx : Context)
  : Context :=
  let '(ctx, vulkan_buffer_) :=
    register_buffer_cleanup (storage_vulkan_buffer_ w) ctx in
  VulkanBuffer_destroy vulkan_buffer_ ctx.

(** ** Descriptor binding *)

Module detail.

(** [std::index_sequence_for<Arguments...>]: 0, 1, ..., n-1. *)
Definition index_sequence_for (arguments : list Resource) : list nat :=
  seq 0 (length arguments).

(** The braced initialiser evaluates
    [descriptor_set.bind(Indices, arguments)...] left to right, the two
    packs expanded in lockstep. *)
Definition bind (descriptor_set : DescriptorSet) (indices : list nat)
  (arguments : list Resource) : DescriptorSet :=
  foldl (fun ds ia => DescriptorSet_bind ds ia.1 ia.2) descriptor_set
    (zip indices arguments).

End detail.

(** ** Copy recording *)

(** The types [record_copy<S, D>] may be instantiated with: the two resource
    classes, and anything else. *)
Inductive CppType : Type :=
| TVulkanBuffer
| TVulkanImage
| TOther (name : string).

Inductive CopySpecialization : Type :=
| copy_buffer_to_buffer
| copy_texture_to_texture
| copy_texture_to_buffer
| copy_buffer_to_texture.

(** The primary template is deleted ([None]); four explicit
    specialisations exist, each calling one [CommandBuffer] method. *)
Definition record_copy_template (S D : CppType) : option CopySpecialization :=
  match S, D with
  | TVulkanBuffer, TVulkanBuffer => Some copy_buffer_to_buffer
  | TVulkanImage, TVulkanImage => Some copy_texture_to_texture
  | TVulkanImage, TVulkanBuffer => Some copy_texture_to_buffer
  | TVulkanBuffer, TVulkanImage => Some copy_buffer_to_texture
  | _, _ => None
  end.

Definition type_of (r : Resource) : CppType :=
  match r with
  | ResBuffer _ => TVulkanBuffer
  | ResImage _ => TVulkanImage
  end.

(** The command each specialisation records. *)
Definition copy_command (source destination : Resource)
  (copy_range src_offset dst_offset : uvec3) : Command :=
  match source, destination with
  | ResBuffer s, ResBuffer d =>
      CmdCopyBufferToBuffer s d copy_range src_offset dst_offset
  | ResImage s, ResImage d =>
      CmdCopyTextureToTexture s d copy_range src_offset dst_offset
  | ResImage s, ResBuffer d =>
      CmdCopyTextureToBuffer s d copy_range src_offset dst_offset
  | ResBuffer s, ResImage d =>
      CmdCopyBufferToTexture s d copy_range src_offset dst_offset
  end.

Definition command_specialization (c : Command) : option CopySpecialization :=
  match c with
  | CmdCopyBufferToBuffer _ _ _ _ _ => Some copy_buffer_to_buffer
  | CmdCopyTextureToTexture _ _ _ _ _ => Some copy_texture_to_texture
  | CmdCopyTextureToBuffer _ _ _ _ _ => Some copy_texture_to_buffer
  | CmdCopyBufferToTexture _ _ _ _ _ => Some copy_buffer_to_texture
  | _ => None
  end.

Definition record_copy (source destination : Resource)
  (copy_range src_offset dst_offset : uvec3) (ctx : Context) : Context :=
  record (copy_command source destination copy_range src_offset dst_offset)
    ctx.

(** ** The two entry points

    [USE_VULKAN_GPU_DIAGNOSTICS] is taken as not defined: the profiling
    brackets are compiled out. *)

(** [std::unique_lock<std::mutex> cmd_lock]: default-constructed it owns
    nothing; its destructor unlocks what it owns. *)
Definition unique_lock : Type := option Mutex.

Definition unique_lock_acquire (l : unique_lock) (ctx : Context) : Context :=
  match l with Some m => lock m ctx | None => ctx end.

Definition unique_lock_destroy (l : unique_lock) (ctx : Context) : Context :=
  match l with Some m => unlock m ctx | None => ctx end.

(** [submit_count_++] followed by the submission test. *)
Definition count_and_maybe_submit (fence_handle : VkFence) (ctx : Context)
  : Context :=
  let ctx := with_submit_count (wrap_uint32 (submit_count_ ctx + 1)) ctx in
  if negb (fence_handle =? VK_NULL_HANDLE)
     || (cmdSubmitFrequency (config_ ctx) <=? submit_count_ ctx)
  then submit_cmd_to_gpu fence_handle ctx
  else ctx.

Definition submit_copy (pipeline_barrier : PipelineBarrier)
  (source destination : Resource) (copy_range src_offset dst_offset : uvec3)
  (fence_handle : VkFence) (ctx : Context) : Context :=
  let cmd_lock : unique_lock :=
    if fence_handle =? VK_NULL_HANDLE then Some cmd_mutex_ else None in
  let ctx := unique_lock_acquire cmd_lock ctx in
  let ctx := set_cmd ctx in
  let ctx := record (CmdInsertBarrier pipeline_barrier) ctx in
  let ctx :=
    record_copy source destination copy_range src_offset dst_offset ctx in
  let ctx := count_and_maybe_submit fence_handle ctx in
  unique_lock_destroy cmd_lock ctx.

(** Modelled from the spec: [submit_compute_prologue] and
    [submit_compute_epilogue] (Context.cpp).  The prologue obtains a
    descriptor set for the shader and fixes the local group size; the
    epilogue inserts the pipeline barrier and dispatches with the extent it
    is given. *)
Definition submit_compute_prologue (shader : ShaderSource)
  (local_work_group_size : uvec3) (ctx : Context) : Context * DescriptorSet :=
  (record (CmdBindPipeline shader local_work_group_size) ctx,
   empty_descriptor_set).

Definition submit_compute_epilogue (descriptor_set : DescriptorSet)
  (pipeline_barrier : PipelineBarrier) (global_work_group : uvec3)
  (ctx : Context) : Context :=
  let ctx := record (CmdInsertBarrier pipeline_barrier) ctx in
  record (CmdDispatch descriptor_set global_work_group) ctx.

(** The extent [submit_compute_job] hands to the epilogue. *)
Definition effective_global_wg (global_work_group : uvec3)
  (shader : ShaderSource) : uvec3 :=
  mk_uvec3
    (div_up (data global_work_group 0) (data (out_tile_size shader) 0))
    (div_up (data global_work_group 1) (data (out_tile_size shader) 1))
    (div_up (data global_work_group 2) (data (out_tile_size shader) 2)).

Definition submit_compute_job (shader : ShaderSource)
  (pipeline_barrier : PipelineBarrier)
  (global_work_group local_work_group_size : uvec3)
  (fence_handle : VkFence) (arguments : list Resource) (ctx : Context)
  : Context :=
  let cmd_lock : unique_lock :=
    if fence_handle =? VK_NULL_HANDLE then Some cmd_mutex_ else None in
  let ctx := unique_lock_acquire cmd_lock ctx in
  let ctx := set_cmd ctx in
  let '(ctx, descriptor_set) :=
    submit_compute_prologue shader local_work_group_size ctx in
  let descriptor_set :=
    detail.bind descriptor_set (detail.index_sequence_for arguments)
      arguments in
  let ctx :=
    submit_compute_epilogue descriptor_set pipeline_barrier
      (effective_global_wg global_work_group shader) ctx in
  let ctx := count_and_maybe_submit fence_handle ctx in
  unique_lock_destroy cmd_lock ctx.

(** ** Sequences of calls *)

Inductive Operation : Type :=
| OpCopy (pipeline_barrier : PipelineBarrier) (source destination : Resource)
    (copy_range src_offset dst_offset : uvec3) (fence_handle : VkFence)
| OpComputeJob (shader : ShaderSource) (pipeline_barrier : PipelineBarrier)
    (global_work_group local_work_group_size : uvec3)
    (fence_handle : VkFence) (arguments : list Resource).

Definition op_fence (op : Operation) : VkFence :=
  match op with
  | OpCopy _ _ _ _ _ _ f => f
  | OpComputeJob _ _ _ _ f _ => f
  end.

Definition exec (op : Operation) (ctx : Context) : Context :=
  match op with
  | OpCopy pb s d r so do f => submit_copy pb s d r so do f ctx
  | OpComputeJob sh pb g l f args => submit_compute_job sh pb g l f args ctx
  end.

Definition run (ops : list Operation) (ctx : Context) : Context :=
  foldl (fun c op => exec op c) ctx ops.

(** Every way the header changes the context: the public entry points, the
    destructors of the wrappers, and the private [set_cmd]. *)
Inductive Call : Type :=
| CallSetCmd
| CallOperation (op : Operation)
| CallRegisterBuffer (b : VulkanBuffer)
| CallRegisterImage (i : VulkanImage)
| CallDestroyParams (w : UniformParamsBuffer)
| CallDestroyStorage (w : StorageBuffer)
| CallFlush.

Definition call (c : Call) (ctx : Context) : Context :=
  match c with
  | CallSetCmd => set_cmd ctx
  | CallOperation op => exec op ctx
  | CallRegisterBuffer b => (register_buffer_cleanup b ctx).1
  | CallRegisterImage i => (register_image_cleanup i ctx).1
  | CallDestroyParams w => UniformParamsBuffer_destroy w ctx
  | CallDestroyStorage w => StorageBuffer_destroy w ctx
  | CallFlush => flush ctx
  end.

Definition calls (cs : list Call) (ctx : Context) : Context :=
  foldl (fun c x => call x c) ctx cs.

(** Events appended between two contexts. *)
Definition new_events (before after : Context) : list Event :=
  drop (length (trace_ before)) (trace_ after).

(** Submissions appended between two contexts. *)
Definition new_submissions (before after : Context)
  : list (CommandBuffer * VkFence) :=
  drop (length (queue_ before)) (queue_ after).

(** ** Derived notions used in the statements

    None of these is code of the header.  They name what the statements
    below talk about; the closed forms among them are proved equal to the
    embedded functions before they are used. *)

(** Extents of the dispatches among a sequence of events. *)
Definition dispatched_extents (es : list Event) : list uvec3 :=
  omap (fun e => match e with
                 | EvRecord _ (CmdDispatch _ g) => Some g
                 | _ => None
                 end) es.

(** The commands one operation records, in order. *)
Definition op_commands (op : Operation) : list Command :=
  match op with
  | OpCopy pb s d r so do _ => [CmdInsertBarrier pb; copy_command s d r so do]
  | OpComputeJob sh pb g l _ args =>
      [CmdBindPipeline sh l;
       CmdInsertBarrier pb;
       CmdDispatch
         (detail.bind empty_descriptor_set (detail.index_sequence_for args)
            args)
         (effective_global_wg g sh)]
  end.

(** The pool and command buffer [set_cmd] leaves behind. *)
Definition opened (ctx : Context) : CommandPool * CommandBuffer :=
  if CommandBuffer_bool (cmd_ ctx) then (command_pool_ ctx, cmd_ ctx)
  else (mk_pool (S (pool_in_use (command_pool_ ctx))),
        mk_cmd (Z.of_nat (S (pool_in_use (command_pool_ ctx)))) Recording []).

(** The event of [set_cmd], if it opens a command buffer. *)
Definition begin_events (ctx : Context) : list Event :=
  if CommandBuffer_bool (cmd_ ctx) then []
  else [EvBegin (Z.of_nat (S (pool_in_use (command_pool_ ctx))))].

(** The events of [cmd_lock]: its conditional acquisition, and its
    destructor. *)
Definition lock_events (f : VkFence) : list Event :=
  if f =? VK_NULL_HANDLE then [EvLock cmd_mutex_] else [].

Definition unlock_events (f : VkFence) : list Event :=
  if f =? VK_NULL_HANDLE then [EvUnlock cmd_mutex_] else [].

(** The submission test, on the counter before the increment. *)
Definition will_submit (f : VkFence) (ctx : Context) : bool :=
  negb (f =? VK_NULL_HANDLE)
  || (cmdSubmitFrequency (config_ ctx) <=? wrap_uint32 (submit_count_ ctx + 1)).

(** Closed forms of the events and of the resulting context of one
    operation ([exec_closed_form] below). *)
Definition recording_events (op : Operation) (ctx : Context) : list Event :=
  begin_events ctx
  ++ map (EvRecord (cmd_handle (opened ctx).2)) (op_commands op).

Definition submit_events (op : Operation) (ctx : Context) : list Event :=
  if will_submit (op_fence op) ctx
  then [EvEnd (cmd_handle (opened ctx).2);
        EvQueueSubmit (cmd_handle (opened ctx).2) (op_fence op)]
  else [].

Definition exec_events (op : Operation) (ctx : Context) : list Event :=
  lock_events (op_fence op)
  ++ recording_events op ctx
  ++ submit_events op ctx
  ++ unlock_events (op_fence op).

Definition exec_result (op : Operation) (ctx : Context) : Context :=
  let c := (opened ctx).2 in
  let recorded := cmd_recorded c ++ op_commands op in
  if will_submit (op_fence op) ctx then
    mk_context (config_ ctx) (opened ctx).1 null_cmd 0
      (buffers_to_clear_ ctx) (images_to_clear_ ctx)
      (queue_ ctx ++ [(mk_cmd (cmd_handle c) Submitted recorded, op_fence op)])
      (released_ ctx) (trace_ ctx ++ exec_events op ctx)
  else
    mk_context (config_ ctx) (opened ctx).1
      (mk_cmd (cmd_handle c) (cmd_state c) recorded)
      (wrap_uint32 (submit_count_ ctx + 1))
      (buffers_to_clear_ ctx) (images_to_clear_ ctx)
      (queue_ ctx) (released_ ctx) (trace_ ctx ++ exec_events op ctx).

(** Descriptor sets of the dispatches among a sequence of events. *)
Definition dispatched_sets (es : list Event) : list DescriptorSet :=
  omap (fun e => match e with
                 | EvRecord _ (CmdDispatch ds _) => Some ds
                 | _ => None
                 end) es.

(** The caller passed [VK_NULL_HANDLE] as the fence. *)
Definition no_fence (op : Operation) : Prop := op_fence op = VK_NULL_HANDLE.

(** Number of payloads (copies and dispatches) in a command list. *)
Definition payloads (cs : list Command) : nat := length (filter is_payload cs).

(** A submitted batch of [T] operations without a fence. *)
Definition full_batch (T : Z) (s : CommandBuffer * VkFence) : Prop :=
  Z.of_nat (payloads (cmd_recorded s.1)) = T
  /\ cmd_state s.1 = Submitted
  /\ s.2 = VK_NULL_HANDLE.

(** The counter agrees with what is pending in the command buffer that
    the next operation will record into. *)
Definition counter_matches_pending (ctx : Context) : Prop :=
  Z.of_nat (payloads (cmd_recorded (opened ctx).2)) = submit_count_ ctx.

(** Commands recorded among a sequence of events. *)
Definition recorded_commands (es : list Event) : list Command :=
  omap (fun e => match e with EvRecord _ c => Some c | _ => None end) es.

(** Lock and unlock events, of any mutex. *)
Definition is_mutex_event (e : Event) : bool :=
  match e with EvLock _ | EvUnlock _ => true | _ => false end.

(** What a call other than [flush] leaves untouched or only extends. *)
Definition defers (before after : Context) : Prop :=
  released_ after = released_ before
  /\ (exists bs, buffers_to_clear_ after = buffers_to_clear_ before ++ bs)
  /\ (exists ims, images_to_clear_ after = images_to_clear_ before ++ ims).

(** Allocations released by destroying a list of buffers or images. *)
Definition released_by_buffers (bs : list VulkanBuffer) : list Allocation :=
  omap (fun b => if VulkanBuffer_bool b
                 then Some (AllocBuffer (buffer_handle b)) else None) bs.

Definition released_by_images (ims : list VulkanImage) : list Allocation :=
  omap (fun i => if VulkanImage_bool i
                 then Some (AllocImage (image_handle i)) else None) ims.

(** The two destructors as one case. *)
Inductive destroys (b : VulkanBuffer) (before : Context) : Context -> Prop :=
| destroys_params :
    destroys b before (UniformParamsBuffer_destroy (mk_params_buffer b) before)
| destroys_storage (numel : Z) :
    destroys b before (StorageBuffer_destroy (mk_storage_buffer numel b) before).

(** Command buffers the context knows of that are begun and not yet
    submitted. *)
Definition open_buffers (ctx : Context) : list CommandBuffer :=
  List.filter is_recording (cmd_ ctx :: map fst (queue_ ctx)).

(** Everything handed to the queue is in the submitted state. *)
Definition queue_all_submitted (ctx : Context) : Prop :=
  Forall (fun s => cmd_state s.1 = Submitted) (queue_ ctx).






(** ** The dispatch lock and the buffer accessors *)

#[global] Instance Mutex_eq_dec : EqDecision Mutex.
Proof. solve_decision. Defined.

(** [dispatch_lock()]: a [std::unique_lock] constructed on [cmd_mutex_],
    which locks it, handed to the caller. *)
Definition dispatch_lock (ctx : Context) : Context * unique_lock :=
  (lock cmd_mutex_ ctx, Some cmd_mutex_).

(** [buffer()] of the two wrappers returns a reference to the member. *)
Definition UniformParamsBuffer_buffer (w : UniformParamsBuffer)
  : VulkanBuffer := params_vulkan_buffer_ w.

Definition StorageBuffer_buffer (w : StorageBuffer) : VulkanBuffer :=
  storage_vulkan_buffer_ w.

(** [context->register_buffer_cleanup(w.buffer())]: the member is moved
    out through the reference, so the wrapper is left holding a moved-from
    buffer. *)
Definition register_params_buffer (w : UniformParamsBuffer) (ctx : Context)
  : Context * UniformParamsBuffer :=
  let '(ctx, b) := register_buffer_cleanup (UniformParamsBuffer_buffer w) ctx in
  (ctx, mk_params_buffer b).

Definition register_storage_buffer (w : StorageBuffer) (ctx : Context)
  : Context * StorageBuffer :=
  let '(ctx, b) := register_buffer_cleanup (StorageBuffer_buffer w) ctx in
  (ctx, mk_storage_buffer (numel_ w) b).

(** What a caller does with the context: a call, taking the dispatch
    lock, or letting go of the [unique_lock] it holds. *)
Inductive Action : Type :=
| ActCall (c : Call)
| ActDispatchLock
| ActReleaseLock.

(** The context together with the [unique_lock] the caller holds. *)
Definition perform (a : Action) (st : Context * unique_lock)
  : Context * unique_lock :=
  match a with
  | ActCall c => (call c st.1, st.2)
  | ActDispatchLock => dispatch_lock st.1
  | ActReleaseLock => (unique_lock_destroy st.2 st.1, None)
  end.

Definition perform_all (acts : list Action) (st : Context * unique_lock)
  : Context * unique_lock :=
  foldl (fun s a => perform a s) st acts.

(** ** Notions used in the further properties *)

(** Replays the mutex events of a trace on the list of held mutexes.
    [std::mutex] is not recursive: locking a held mutex, or unlocking one
    that is not held, has no result. *)
Definition mutex_held (m : Mutex) (held : list Mutex) : bool :=
  existsb (fun x => bool_decide (x = m)) held.

Definition mutex_drop (m : Mutex) (held : list Mutex) : list Mutex :=
  List.filter (fun x => negb (bool_decide (x = m))) held.

Fixpoint mutex_check (held : list Mutex) (es : list Event)
  : option (list Mutex) :=
  match es with
  | [] => Some held
  | EvLock m :: es' =>
      if mutex_held m held then None else mutex_check (m :: held) es'
  | EvUnlock m :: es' =>
      if mutex_held m held then mutex_check (mutex_drop m held) es' else None
  | _ :: es' => mutex_check held es'
  end.

(** What the caller holds, as a set of held mutexes. *)
Definition held_by (l : unique_lock) : list Mutex :=
  match l with Some m => [m] | None => [] end.

(** The caller holds nothing, or the dispatch lock. *)
Definition caller_lock_ok (l : unique_lock) : Prop :=
  l = None \/ l = Some cmd_mutex_.

(** An action that respects the calling convention of the header, given
    the lock the caller holds: the dispatch lock is not taken twice, and an
    operation without a fence is not issued while the caller holds it.
    [flush] is defined outside the header and is left out. *)
Definition action_allowed (l : unique_lock) (a : Action) : bool :=
  match a with
  | ActCall CallFlush => false
  | ActCall (CallOperation op) =>
      negb (op_fence op =? VK_NULL_HANDLE)
      || match l with None => true | Some _ => false end
  | ActCall _ => true
  | ActDispatchLock => match l with None => true | Some _ => false end
  | ActReleaseLock => true
  end.

Definition lock_after (l : unique_lock) (a : Action) : unique_lock :=
  match a with
  | ActCall _ => l
  | ActDispatchLock => Some cmd_mutex_
  | ActReleaseLock => None
  end.

Fixpoint actions_allowed (l : unique_lock) (acts : list Action) : bool :=
  match acts with
  | [] => true
  | a :: acts' =>
      action_allowed l a && actions_allowed (lock_after l a) acts'
  end.

(** A call the header itself defines. *)
Definition not_flush (c : Call) : Prop := c <> CallFlush.

(** Commands, non-null fences, buffers and images a call contributes. *)
Definition call_commands (c : Call) : list Command :=
  match c with CallOperation op => op_commands op | _ => [] end.

Definition call_fences (c : Call) : list VkFence :=
  match c with
  | CallOperation op =>
      if op_fence op =? VK_NULL_HANDLE then [] else [op_fence op]
  | _ => []
  end.

Definition call_buffers (c : Call) : list VulkanBuffer :=
  match c with
  | CallRegisterBuffer b => [b]
  | CallDestroyParams w =>
      if VulkanBuffer_bool (params_vulkan_buffer_ w)
      then [params_vulkan_buffer_ w] else []
  | CallDestroyStorage w => [storage_vulkan_buffer_ w]
  | _ => []
  end.

Definition call_images (c : Call) : list VulkanImage :=
  match c with CallRegisterImage i => [i] | _ => [] end.

(** A call that only concerns the cleanup lists. *)
Definition is_cleanup_call (c : Call) : bool :=
  match c with
  | CallRegisterBuffer _ | CallRegisterImage _
  | CallDestroyParams _ | CallDestroyStorage _ => true
  | _ => false
  end.

(** Everything recorded into submitted command buffers, in queue order. *)
Definition submitted_commands (ctx : Context) : list Command :=
  concat (map (fun s => cmd_recorded s.1) (queue_ ctx)).

(** The non-null fences handed to the queue, in queue order. *)
Definition signalled_fences (ctx : Context) : list VkFence :=
  List.filter (fun f => negb (f =? VK_NULL_HANDLE)) (map snd (queue_ ctx)).

(** The command buffers taken from the pool so far are the submitted ones,
    in queue order, followed by the open one if there is one; without an
    open one [cmd_] is the null command buffer. *)
Definition pool_accounted (ctx : Context) : Prop :=
  map (fun s => cmd_handle s.1) (queue_ ctx)
  = map Z.of_nat (seq 1 (length (queue_ ctx)))
  /\ if CommandBuffer_bool (cmd_ ctx)
     then cmd_state (cmd_ ctx) = Recording
          /\ cmd_handle (cmd_ ctx) = Z.of_nat (S (length (queue_ ctx)))
          /\ pool_in_use (command_pool_ ctx) = S (length (queue_ ctx))
     else cmd_ ctx = null_cmd
          /\ pool_in_use (command_pool_ ctx) = length (queue_ ctx).

(** A submitted command buffer holding between one and [T] operations. *)
Definition bounded_batch (T : Z) (s : CommandBuffer * VkFence) : Prop :=
  1 <= Z.of_nat (payloads (cmd_recorded s.1)) <= T.

(** Equality of two contexts up to the order of the recorded effects. *)
Definition same_state (a b : Context) : Prop :=
  config_ a = config_ b
  /\ command_pool_ a = command_pool_ b
  /\ cmd_ a = cmd_ b
  /\ submit_count_ a = submit_count_ b
  /\ buffers_to_clear_ a = buffers_to_clear_ b
  /\ images_to_clear_ a = images_to_clear_ b
  /\ queue_ a = queue_ b
  /\ released_ a = released_ b.

(** * Properties *)

(** ** Generic facts *)

Lemma new_events_app (before after : Context) (es : list Event) :
  trace_ after = trace_ before ++ es -> new_events before after = es.
Proof.
  intros H. unfold new_events. rewrite H. apply drop_app_length.
Qed.

Lemma new_submissions_app (before after : Context) qs :
  queue_ after = queue_ before ++ qs -> new_submissions before after = qs.
Proof.
  intros H. unfold new_submissions. rewrite H. apply drop_app_length.
Qed.

(** ** Closed form of one recorded operation *)

Ltac ctx_simpl :=
  unfold with_cmd, with_pool_cmd, with_submit_count, with_buffers_to_clear,
    with_images_to_clear, with_queue, with_released, emit, lock, unlock,
    CommandBuffer_begin, CommandBuffer_end, CommandBuffer_submitted,
    CommandBuffer_append, get_new_cmd;
  cbn [config_ command_pool_ cmd_ submit_count_ buffers_to_clear_
       images_to_clear_ queue_ released_ trace_ cmd_handle cmd_state
       cmd_recorded pool_in_use fst snd].

Lemma opened_valid (ctx : Context) :
  CommandBuffer_bool (opened ctx).2 = true.
Proof.
  unfold opened. destruct (CommandBuffer_bool (cmd_ ctx)) eqn:E; [exact E|].
  unfold CommandBuffer_bool, VK_NULL_HANDLE. ctx_simpl.
  apply negb_true_iff, Z.eqb_neq. lia.
Qed.

Lemma set_cmd_closed_form (ctx : Context) :
  set_cmd ctx
  = mk_context (config_ ctx) (opened ctx).1 (opened ctx).2 (submit_count_ ctx)
      (buffers_to_clear_ ctx) (images_to_clear_ ctx) (queue_ ctx)
      (released_ ctx) (trace_ ctx ++ begin_events ctx).
Proof.
  unfold set_cmd, opened, begin_events.
  destruct (CommandBuffer_bool (cmd_ ctx)); ctx_simpl.
  - rewrite app_nil_r. destruct ctx; reflexivity.
  - reflexivity.
Qed.

Lemma record_all_closed_form (cs : list Command) :
  forall ctx : Context,
    foldl (fun c x => record x c) ctx cs
    = mk_context (config_ ctx) (command_pool_ ctx)
        (mk_cmd (cmd_handle (cmd_ ctx)) (cmd_state (cmd_ ctx))
           (cmd_recorded (cmd_ ctx) ++ cs))
        (submit_count_ ctx) (buffers_to_clear_ ctx) (images_to_clear_ ctx)
        (queue_ ctx) (released_ ctx)
        (trace_ ctx ++ map (EvRecord (cmd_handle (cmd_ ctx))) cs).
Proof.
  induction cs as [|x cs IH]; intros ctx.
  - cbn [foldl map]. rewrite !app_nil_r. destruct ctx as [? ? [] ? ? ? ? ? ?].
    reflexivity.
  - cbn [foldl map]. rewrite IH. unfold record. ctx_simpl.
    rewrite <- !app_assoc. reflexivity.
Qed.

Lemma count_and_maybe_submit_closed_form (f : VkFence) (ctx : Context) :
  CommandBuffer_bool (cmd_ ctx) = true ->
  count_and_maybe_submit f ctx
  = if will_submit f ctx then
      mk_context (config_ ctx) (command_pool_ ctx) null_cmd 0
        (buffers_to_clear_ ctx) (images_to_clear_ ctx)
        (queue_ ctx
         ++ [(mk_cmd (cmd_handle (cmd_ ctx)) Submitted (cmd_recorded (cmd_ ctx)),
              f)])
        (released_ ctx)
        (trace_ ctx
         ++ [EvEnd (cmd_handle (cmd_ ctx));
             EvQueueSubmit (cmd_handle (cmd_ ctx)) f])
    else with_submit_count (wrap_uint32 (submit_count_ ctx + 1)) ctx.
Proof.
  intros Hv. unfold count_and_maybe_submit, will_submit. ctx_simpl.
  destruct (negb (f =? VK_NULL_HANDLE)
            || (cmdSubmitFrequency (config_ ctx)
                <=? wrap_uint32 (submit_count_ ctx + 1))); [|reflexivity].
  unfold submit_cmd_to_gpu. ctx_simpl. rewrite Hv. ctx_simpl.
  rewrite <- ?app_assoc. reflexivity.
Qed.

Lemma exec_unfold (op : Operation) (ctx : Context) :
  exec op ctx
  = let cmd_lock : unique_lock :=
      if op_fence op =? VK_NULL_HANDLE then Some cmd_mutex_ else None in
    unique_lock_destroy cmd_lock
      (count_and_maybe_submit (op_fence op)
         (foldl (fun c x => record x c)
            (set_cmd (unique_lock_acquire cmd_lock ctx)) (op_commands op))).
Proof. destruct op; reflexivity. Qed.

Lemma opened_emit (es : list Event) (ctx : Context) :
  opened (emit es ctx) = opened ctx
  /\ begin_events (emit es ctx) = begin_events ctx.
Proof. split; reflexivity. Qed.

Lemma exec_closed_form (op : Operation) (ctx : Context) :
  exec op ctx = exec_result op ctx.
Proof.
  rewrite exec_unfold. cbn zeta.
  unfold exec_result, exec_events, recording_events, submit_events,
    lock_events, unlock_events, will_submit.
  generalize (op_fence op) (op_commands op). intros f cs.
  pose proof (opened_valid ctx) as Hv. unfold CommandBuffer_bool in Hv.
  destruct (f =? VK_NULL_HANDLE) eqn:Hf;
    cbn [unique_lock_acquire unique_lock_destroy negb orb];
    unfold lock, unlock;
    rewrite set_cmd_closed_form, record_all_closed_form;
    destruct (opened_emit [EvLock cmd_mutex_] ctx) as [Ho Hb];
    rewrite ?Ho, ?Hb; ctx_simpl;
    (rewrite count_and_maybe_submit_closed_form
      by (unfold CommandBuffer_bool; ctx_simpl; exact Hv));
    unfold will_submit; ctx_simpl; rewrite Hf; cbn [negb orb];
    destruct (cmdSubmitFrequency (config_ ctx)
              <=? wrap_uint32 (submit_count_ ctx + 1));
    ctx_simpl; rewrite ?app_nil_r, <- ?app_assoc; reflexivity.
Qed.

Lemma exec_trace (op : Operation) (ctx : Context) :
  trace_ (exec op ctx) = trace_ ctx ++ exec_events op ctx.
Proof.
  rewrite exec_closed_form. unfold exec_result.
  destruct (will_submit _ _); reflexivity.
Qed.

Lemma exec_new_events (op : Operation) (ctx : Context) :
  new_events ctx (exec op ctx) = exec_events op ctx.
Proof. apply new_events_app, exec_trace. Qed.

(** ** Work-group size *)

Lemma omap_app {A B} (f : A -> option B) (l k : list A) :
  omap f (l ++ k) = omap f l ++ omap f k.
Proof.
  induction l as [|x l IH]; cbn; [reflexivity|].
  destruct (f x); cbn; rewrite IH; reflexivity.
Qed.

Lemma exec_events_compute_dispatch sh pb g l f args ctx :
  exists pre post h,
    exec_events (OpComputeJob sh pb g l f args) ctx
    = pre
      ++ [EvRecord h
            (CmdDispatch
               (detail.bind empty_descriptor_set
                  (detail.index_sequence_for args) args)
               (effective_global_wg g sh))]
      ++ post
    /\ dispatched_extents pre = [] /\ dispatched_extents post = []
    /\ dispatched_sets pre = [] /\ dispatched_sets post = [].
Proof.
  unfold exec_events, recording_events, submit_events, lock_events,
    unlock_events, begin_events.
  cbn [op_commands op_fence map].
  set (h := cmd_handle (opened ctx).2).
  exists (lock_events f ++ begin_events ctx
          ++ [EvRecord h (CmdBindPipeline sh l);
              EvRecord h (CmdInsertBarrier pb)]),
    (submit_events (OpComputeJob sh pb g l f args) ctx ++ unlock_events f), h.
  unfold submit_events, lock_events, unlock_events, begin_events.
  cbn [op_fence]. fold h.
  split.
  - rewrite <- !app_assoc. reflexivity.
  - destruct (f =? VK_NULL_HANDLE), (CommandBuffer_bool (cmd_ ctx)),
      (will_submit f ctx); cbn; auto.
Qed.

(** The quotient rounded up is the least multiple count covering the
    numerator. *)
Lemma div_up_ceiling (n d : Z) :
  0 < d ->
  n <= div_up n d * d /\ forall q, n <= q * d -> div_up n d <= q.
Proof.
  intros Hd. unfold div_up.
  pose proof (Z.div_mod n d ltac:(lia)) as Hdm.
  pose proof (Z.mod_pos_bound n d Hd) as Hm.
  destruct (n mod d =? 0) eqn:E.
  - apply Z.eqb_eq in E. split; [nia|]. intros q Hq. nia.
  - apply Z.eqb_neq in E. split; [nia|]. intros q Hq. nia.
Qed.

(** On [uint32_t] operands the rounded-up quotient is again a [uint32_t]. *)
Lemma div_up_uint32 (n d : Z) :
  is_uint32 n -> 0 < d -> is_uint32 (div_up n d).
Proof.
  unfold is_uint32. intros Hn Hd.
  destruct (div_up_ceiling n d Hd) as [H1 H2].
  split.
  - destruct (Z_lt_le_dec (div_up n d) 0) as [Hneg|]; [|lia].
    unfold div_up in Hneg.
    pose proof (Z.div_pos n d ltac:(lia) Hd).
    destruct (n mod d =? 0); lia.
  - specialize (H2 n ltac:(nia)). lia.
Qed.

(** C1. For every compute-job submission exactly one dispatch is recorded,
    and its global work-group size is, in each of the three axes, the
    requested extent divided by the shader's output-tile size rounded up:
    the least count of tiles covering the extent.  Requested extent
    (10,10,1) with tile size (4,4,1) gives (3,3,1). *)
Theorem submit_compute_job_effective_global_wg
  (shader : ShaderSource) (pipeline_barrier : PipelineBarrier)
  (global_work_group local_work_group_size : uvec3) (fence_handle : VkFence)
  (arguments : list Resource) (ctx : Context) :
  0 < data (out_tile_size shader) 0 ->
  0 < data (out_tile_size shader) 1 ->
  0 < data (out_tile_size shader) 2 ->
  exists effective : uvec3,
    dispatched_extents
      (new_events ctx
         (submit_compute_job shader pipeline_barrier global_work_group
            local_work_group_size fence_handle arguments ctx))
    = [effective]
    /\ (forall axis : nat,
          (axis < 3)%nat ->
          data global_work_group axis
          <= data effective axis * data (out_tile_size shader) axis
          /\ forall q : Z,
               data global_work_group axis
               <= q * data (out_tile_size shader) axis ->
               data effective axis <= q)
    /\ (global_work_group = mk_uvec3 10 10 1 ->
        out_tile_size shader = mk_uvec3 4 4 1 ->
        effective = mk_uvec3 3 3 1).
Proof.
  intros H0 H1 H2.
  exists (effective_global_wg global_work_group shader).
  split; [|split].
  - change (submit_compute_job shader pipeline_barrier global_work_group
              local_work_group_size fence_handle arguments ctx)
      with (exec (OpComputeJob shader pipeline_barrier global_work_group
                    local_work_group_size fence_handle arguments) ctx).
    rewrite exec_new_events.
    destruct (exec_events_compute_dispatch shader pipeline_barrier
                global_work_group local_work_group_size fence_handle
                arguments ctx) as (pre & post & h & -> & Hpre & Hpost & _).
    unfold dispatched_extents in *. rewrite !omap_app, Hpre, Hpost.
    reflexivity.
  - intros axis Haxis.
    destruct axis as [|[|[|axis]]]; [| | |lia]; cbn [data effective_global_wg
      data0 data1 data2]; apply div_up_ceiling; assumption.
  - intros Hg Ht. unfold effective_global_wg. rewrite Hg, Ht. reflexivity.
Qed.

Lemma submit_compute_job_effective_global_wg_witness :
  exists effective : uvec3,
    dispatched_extents
      (new_events (new_context (mk_config 3))
         (submit_compute_job (mk_shader "add" (mk_uvec3 4 4 1))
            (mk_barrier 1 2) (mk_uvec3 10 10 1) (mk_uvec3 8 8 1)
            VK_NULL_HANDLE [ResBuffer (mk_buffer 7)]
            (new_context (mk_config 3))))
    = [effective]
    /\ effective = mk_uvec3 3 3 1.
Proof.
  destruct (submit_compute_job_effective_global_wg
              (mk_shader "add" (mk_uvec3 4 4 1)) (mk_barrier 1 2)
              (mk_uvec3 10 10 1) (mk_uvec3 8 8 1) VK_NULL_HANDLE
              [ResBuffer (mk_buffer 7)] (new_context (mk_config 3)))
    as (effective & Hd & _ & Hex); [cbn; lia | cbn; lia | cbn; lia |].
  exists effective. split; [exact Hd | apply Hex; reflexivity].
Defined.

(** ** Binding order *)

Section Bind.

Implicit Types (ds : DescriptorSet) (arguments : list Resource).

Lemma bind_cons ds i indices x arguments :
  detail.bind ds (i :: indices) (x :: arguments)
  = detail.bind (DescriptorSet_bind ds i x) indices arguments.
Proof. reflexivity. Qed.

(** The calls made are the index/argument pairs, left to right. *)
Lemma bind_calls_bind ds indices arguments :
  bind_calls (detail.bind ds indices arguments)
  = bind_calls ds ++ zip indices arguments.
Proof.
  revert ds arguments.
  induction indices as [|i indices IH]; intros ds [|x arguments];
    try (cbn; rewrite app_nil_r; reflexivity).
  rewrite bind_cons, IH. cbn. rewrite <- app_assoc. reflexivity.
Qed.

(** Slots [start .. start + n - 1] receive the arguments in order; other
    slots keep what they held. *)
Lemma bound_bind_seq arguments :
  forall (start : nat) ds (k : nat),
    bound (detail.bind ds (seq start (length arguments)) arguments) !! k
    = if decide (start <= k < start + length arguments)%nat
      then arguments !! (k - start)%nat
      else bound ds !! k.
Proof.
  induction arguments as [|x arguments IH]; intros start ds k.
  - cbn. case_decide; [lia | reflexivity].
  - cbn [length seq]. rewrite bind_cons, IH.
    unfold DescriptorSet_bind. cbn [bound length].
    repeat case_decide; try lia.
    + replace (k - start)%nat with (S (k - S start)) by lia. reflexivity.
    + assert (k = start) as -> by lia.
      rewrite lookup_insert_eq.
      replace (start - start)%nat with 0%nat by lia. reflexivity.
    + rewrite lookup_insert_ne by lia. reflexivity.
Qed.

Lemma lookup_zip_seq arguments (k : nat) :
  zip (seq 0 (length arguments)) arguments !! k
  = (fun x => (k, x)) <$> arguments !! k.
Proof.
  rewrite lookup_zip_with.
  destruct (arguments !! k) as [x|] eqn:Hk.
  - rewrite lookup_seq_lt by (eapply lookup_lt_Some; eassumption).
    reflexivity.
  - rewrite lookup_seq_ge by (apply lookup_ge_None; assumption).
    reflexivity.
Qed.

End Bind.

(** C2. For every call to [submit_compute_job], whatever the number of
    arguments, the one descriptor set dispatched was filled by exactly one
    [bind] call per argument, the k-th call (counting from zero) binding
    the k-th argument at slot k; the slot table holds at slot k the k-th
    argument and nothing beyond the last argument. *)
Theorem submit_compute_job_binds_in_argument_order
  (shader : ShaderSource) (pipeline_barrier : PipelineBarrier)
  (global_work_group local_work_group_size : uvec3) (fence_handle : VkFence)
  (arguments : list Resource) (ctx : Context) :
  exists descriptor_set : DescriptorSet,
    dispatched_sets
      (new_events ctx
         (submit_compute_job shader pipeline_barrier global_work_group
            local_work_group_size fence_handle arguments ctx))
    = [descriptor_set]
    /\ length (bind_calls descriptor_set) = length arguments
    /\ (forall k : nat,
          bind_calls descriptor_set !! k
          = (fun x => (k, x)) <$> arguments !! k)
    /\ (forall k : nat, bound descriptor_set !! k = arguments !! k).
Proof.
  exists (detail.bind empty_descriptor_set
            (detail.index_sequence_for arguments) arguments).
  split; [|split; [|split]].
  - change (submit_compute_job shader pipeline_barrier global_work_group
              local_work_group_size fence_handle arguments ctx)
      with (exec (OpComputeJob shader pipeline_barrier global_work_group
                    local_work_group_size fence_handle arguments) ctx).
    rewrite exec_new_events.
    destruct (exec_events_compute_dispatch shader pipeline_barrier
                global_work_group local_work_group_size fence_handle
                arguments ctx) as (pre & post & h & -> & _ & _ & Hpre & Hpost).
    unfold dispatched_sets in *. rewrite !omap_app, Hpre, Hpost.
    reflexivity.
  - rewrite bind_calls_bind. unfold detail.index_sequence_for. cbn.
    rewrite length_zip, length_seq. lia.
  - intros k. rewrite bind_calls_bind. cbn.
    apply lookup_zip_seq.
  - intros k. unfold detail.index_sequence_for.
    rewrite bound_bind_seq. cbn.
    case_decide as Hk.
    + f_equal. lia.
    + rewrite lookup_empty. symmetry. apply lookup_ge_None. lia.
Qed.

Example bind_three_arguments :
  bind_calls
    (detail.bind empty_descriptor_set
       (detail.index_sequence_for
          [ResImage (mk_image 5); ResBuffer (mk_buffer 6);
           ResBuffer (mk_buffer 7)])
       [ResImage (mk_image 5); ResBuffer (mk_buffer 6);
        ResBuffer (mk_buffer 7)])
  = [(0%nat, ResImage (mk_image 5)); (1%nat, ResBuffer (mk_buffer 6));
     (2%nat, ResBuffer (mk_buffer 7))].
Proof. reflexivity. Qed.

(** ** Submission policy *)

Lemma set_cmd_opened (ctx : Context) :
  command_pool_ (set_cmd ctx) = (opened ctx).1
  /\ cmd_ (set_cmd ctx) = (opened ctx).2.
Proof.
  unfold set_cmd, opened. destruct (CommandBuffer_bool (cmd_ ctx)); auto.
Qed.

Lemma will_submit_true (f : VkFence) (ctx : Context) :
  will_submit f ctx = true
  <-> f <> VK_NULL_HANDLE
      \/ cmdSubmitFrequency (config_ ctx) <= wrap_uint32 (submit_count_ ctx + 1).
Proof.
  unfold will_submit.
  rewrite orb_true_iff, negb_true_iff, Z.eqb_neq, Z.leb_le. reflexivity.
Qed.

Lemma exec_new_submissions (op : Operation) (ctx : Context) :
  new_submissions ctx (exec op ctx)
  = if will_submit (op_fence op) ctx
    then [(mk_cmd (cmd_handle (opened ctx).2) Submitted
             (cmd_recorded (opened ctx).2 ++ op_commands op),
           op_fence op)]
    else [].
Proof.
  rewrite exec_closed_form. unfold exec_result.
  destruct (will_submit _ _); apply new_submissions_app; cbn;
    [reflexivity | rewrite app_nil_r; reflexivity].
Qed.

(** C3. After a recorded operation (copy or compute job) has incremented
    the submission counter, the command buffer is handed to the queue if and
    only if the caller passed a non-null fence or the incremented counter
    has reached [cmdSubmitFrequency].  When it is handed over, it is the
    open command buffer with this operation's commands at the end, together
    with the caller's fence.  Otherwise nothing is submitted and the
    operation's commands stay at the end of the same, still open, command
    buffer. *)
Theorem recorded_operation_submission_policy
  (op : Operation) (ctx : Context) :
  let incremented := wrap_uint32 (submit_count_ ctx + 1) in
  let open := cmd_ (set_cmd ctx) in
  let submitted := new_submissions ctx (exec op ctx) in
  (submitted <> []
   <-> op_fence op <> VK_NULL_HANDLE
       \/ cmdSubmitFrequency (config_ ctx) <= incremented)
  /\ (submitted <> [] ->
      submitted
      = [(mk_cmd (cmd_handle open) Submitted
            (cmd_recorded open ++ op_commands op), op_fence op)])
  /\ (submitted = [] ->
      queue_ (exec op ctx) = queue_ ctx
      /\ submit_count_ (exec op ctx) = incremented
      /\ CommandBuffer_bool (cmd_ (exec op ctx)) = true
      /\ cmd_handle (cmd_ (exec op ctx)) = cmd_handle open
      /\ cmd_recorded (cmd_ (exec op ctx))
         = cmd_recorded open ++ op_commands op).
Proof.
  cbn zeta. destruct (set_cmd_opened ctx) as [_ ->].
  rewrite exec_new_submissions, <- will_submit_true.
  rewrite exec_closed_form. unfold exec_result.
  destruct (will_submit (op_fence op) ctx) eqn:Hw.
  - split; [|split]; [split; [reflexivity | discriminate] | reflexivity |].
    discriminate.
  - split; [|split].
    + split; [congruence | discriminate].
    + congruence.
    + intros _. cbn. pose proof (opened_valid ctx) as Hv.
      unfold CommandBuffer_bool in *. cbn. auto.
Qed.

Lemma recorded_operation_submission_policy_witness :
  new_submissions
    (new_context (mk_config 2))
    (exec (OpCopy (mk_barrier 1 2) (ResBuffer (mk_buffer 3))
             (ResImage (mk_image 4)) (mk_uvec3 1 1 1) (mk_uvec3 0 0 0)
             (mk_uvec3 0 0 0) 9)
       (new_context (mk_config 2)))
  = [(mk_cmd 1 Submitted
        [CmdInsertBarrier (mk_barrier 1 2);
         CmdCopyBufferToTexture (mk_buffer 3) (mk_image 4) (mk_uvec3 1 1 1)
           (mk_uvec3 0 0 0) (mk_uvec3 0 0 0)], 9)].
Proof.
  apply (recorded_operation_submission_policy
           (OpCopy (mk_barrier 1 2) (ResBuffer (mk_buffer 3))
              (ResImage (mk_image 4)) (mk_uvec3 1 1 1) (mk_uvec3 0 0 0)
              (mk_uvec3 0 0 0) 9)
           (new_context (mk_config 2))).
  vm_compute. discriminate.
Defined.

Example deferred_below_threshold :
  let ctx :=
    exec (OpCopy (mk_barrier 1 2) (ResBuffer (mk_buffer 3))
            (ResBuffer (mk_buffer 4)) (mk_uvec3 1 1 1) (mk_uvec3 0 0 0)
            (mk_uvec3 0 0 0) VK_NULL_HANDLE)
      (new_context (mk_config 2)) in
  queue_ ctx = [] /\ submit_count_ ctx = 1 /\ cmd_handle (cmd_ ctx) = 1.
Proof. vm_compute. auto. Qed.

(** ** Batching *)

Lemma payloads_app (l k : list Command) :
  payloads (l ++ k) = (payloads l + payloads k)%nat.
Proof. unfold payloads. rewrite filter_app, length_app. reflexivity. Qed.

Lemma payloads_op_commands (op : Operation) : payloads (op_commands op) = 1%nat.
Proof.
  destruct op as [pb s d r so do f | sh pb g l f args]; [|reflexivity].
  destruct s, d; reflexivity.
Qed.

Lemma run_cons (op : Operation) (ops : list Operation) (ctx : Context) :
  run (op :: ops) ctx = run ops (exec op ctx).
Proof. reflexivity. Qed.

Lemma exec_config (op : Operation) (ctx : Context) :
  config_ (exec op ctx) = config_ ctx.
Proof.
  rewrite exec_closed_form. unfold exec_result.
  destruct (will_submit _ _); reflexivity.
Qed.

Lemma run_config (ops : list Operation) (ctx : Context) :
  config_ (run ops ctx) = config_ ctx.
Proof.
  revert ctx. induction ops as [|op ops IH]; intros ctx; [reflexivity|].
  rewrite run_cons, IH. apply exec_config.
Qed.

Lemma will_submit_no_fence (op : Operation) (ctx : Context) :
  no_fence op ->
  0 <= submit_count_ ctx < cmdSubmitFrequency (config_ ctx) ->
  cmdSubmitFrequency (config_ ctx) <= UINT32_MAX ->
  wrap_uint32 (submit_count_ ctx + 1) = submit_count_ ctx + 1
  /\ will_submit (op_fence op) ctx
     = (cmdSubmitFrequency (config_ ctx) =? submit_count_ ctx + 1).
Proof.
  unfold no_fence, will_submit, UINT32_MAX, wrap_uint32. intros -> Hc HT.
  rewrite Z.mod_small by lia. split; [reflexivity|].
  change (negb (VK_NULL_HANDLE =? VK_NULL_HANDLE)) with false. cbn [orb].
  destruct (Z.leb_spec (cmdSubmitFrequency (config_ ctx))
              (submit_count_ ctx + 1));
    symmetry; [apply Z.eqb_eq | apply Z.eqb_neq]; lia.
Qed.

(** One operation without a fence, from a counter below the threshold:
    either the threshold is reached and the batch goes out, or the
    operation is deferred. *)
Lemma exec_below_threshold (op : Operation) (ctx : Context) :
  let T := cmdSubmitFrequency (config_ ctx) in
  T <= UINT32_MAX ->
  0 <= submit_count_ ctx < T ->
  no_fence op ->
  (T = submit_count_ ctx + 1
   /\ submit_count_ (exec op ctx) = 0
   /\ exists s,
       queue_ (exec op ctx) = queue_ ctx ++ [s]
       /\ (counter_matches_pending ctx ->
           full_batch T s /\ counter_matches_pending (exec op ctx)))
  \/ (submit_count_ ctx + 1 < T
      /\ submit_count_ (exec op ctx) = submit_count_ ctx + 1
      /\ queue_ (exec op ctx) = queue_ ctx
      /\ (counter_matches_pending ctx ->
          counter_matches_pending (exec op ctx))).
Proof.
  intros T HT Hc Hop.
  destruct (will_submit_no_fence op ctx Hop Hc HT) as [Hwrap Hw].
  rewrite exec_closed_form. unfold exec_result. rewrite Hw, Hwrap. fold T.
  unfold counter_matches_pending.
  destruct (Z.eqb_spec T (submit_count_ ctx + 1)) as [Heq|Hne].
  - left. split; [exact Heq|]. split; [reflexivity|].
    eexists. split; [reflexivity|].
    intros Hpend. split; [|reflexivity].
    unfold full_batch. cbn [fst snd cmd_recorded cmd_state].
    rewrite payloads_app, payloads_op_commands.
    split; [lia | split; [reflexivity | exact Hop]].
  - right. split; [lia|]. split; [reflexivity|]. split; [reflexivity|].
    intros Hpend. pose proof (opened_valid ctx) as Hv.
    unfold opened at 1. unfold CommandBuffer_bool in *.
    cbn [cmd_ cmd_handle submit_count_]. rewrite Hv.
    cbn [snd cmd_recorded].
    rewrite payloads_app, payloads_op_commands. lia.
Qed.

(** From a counter below the threshold, [N] operations without a fence
    append [(c + N) / T] submissions and leave the counter at
    [(c + N) mod T]. *)
Lemma run_below_threshold (ops : list Operation) :
  forall ctx : Context,
    let T := cmdSubmitFrequency (config_ ctx) in
    let N := Z.of_nat (length ops) in
    T <= UINT32_MAX ->
    0 <= submit_count_ ctx < T ->
    Forall no_fence ops ->
    exists qs,
      queue_ (run ops ctx) = queue_ ctx ++ qs
      /\ Z.of_nat (length qs) = (submit_count_ ctx + N) / T
      /\ submit_count_ (run ops ctx) = (submit_count_ ctx + N) mod T
      /\ (counter_matches_pending ctx ->
          Forall (full_batch T) qs /\ counter_matches_pending (run ops ctx)).
Proof.
  induction ops as [|op ops IH]; intros ctx T N HT Hc Hops.
  - exists []. subst N. cbn [length run foldl]. rewrite app_nil_r, Z.add_0_r.
    rewrite Z.div_small, Z.mod_small by lia. auto.
  - apply Forall_cons in Hops as [Hop Hops].
    rewrite run_cons.
    specialize (IH (exec op ctx)). cbn zeta in IH.
    rewrite exec_config in IH. fold T in IH.
    assert (HN : N = Z.of_nat (length ops) + 1) by (subst N; cbn [length]; lia).
    destruct (exec_below_threshold op ctx HT Hc Hop)
      as [(Heq & Hcount & s & Hq & Hs) | (Hlt & Hcount & Hq & Hs)];
      fold T in Heq || fold T in Hlt;
      (destruct IH as (qs & Hq' & Hlen & Hcount' & Hbatch);
       [lia | lia | assumption |]);
      rewrite Hcount in Hlen, Hcount'; rewrite Hq in Hq'.
    + (* the threshold is reached: submit, counter back to zero *)
      exists (s :: qs). split; [|split; [|split]].
      * rewrite Hq', <- app_assoc. reflexivity.
      * cbn [length]. rewrite Nat2Z.inj_succ, Hlen, HN.
        replace (submit_count_ ctx + (Z.of_nat (length ops) + 1))
          with (0 + Z.of_nat (length ops) + 1 * T) by lia.
        rewrite Z.div_add by lia. lia.
      * rewrite Hcount', HN.
        replace (submit_count_ ctx + (Z.of_nat (length ops) + 1))
          with (0 + Z.of_nat (length ops) + 1 * T) by lia.
        rewrite Z.mod_add by lia. reflexivity.
      * intros Hpend. destruct (Hs Hpend) as [Hfull Hpend'].
        destruct (Hbatch Hpend') as [Hall Hfinal].
        split; [|exact Hfinal].
        apply Forall_cons. split; assumption.
    + (* below the threshold: deferred *)
      exists qs. split; [|split; [|split]].
      * exact Hq'.
      * rewrite Hlen, HN. f_equal. lia.
      * rewrite Hcount', HN. f_equal. lia.
      * intros Hpend. apply Hbatch, Hs, Hpend.
Qed.

(** One operation without a fence, from any counter: afterwards the counter
    is below the threshold, and at most one submission was appended. *)
Lemma exec_no_fence_step (op : Operation) (ctx : Context) :
  let T := cmdSubmitFrequency (config_ ctx) in
  1 <= T ->
  no_fence op ->
  0 <= submit_count_ (exec op ctx) < T
  /\ ((submit_count_ (exec op ctx) = 0
       /\ exists s, queue_ (exec op ctx) = queue_ ctx ++ [s])
      \/ queue_ (exec op ctx) = queue_ ctx).
Proof.
  intros T HT Hop. rewrite exec_closed_form. unfold exec_result, will_submit.
  rewrite Hop. change (negb (VK_NULL_HANDLE =? VK_NULL_HANDLE)) with false.
  cbn [orb]. fold T.
  pose proof (Z.mod_pos_bound (submit_count_ ctx + 1) (2 ^ 32) ltac:(lia))
    as Hwrap. fold (wrap_uint32 (submit_count_ ctx + 1)) in Hwrap.
  destruct (Z.leb_spec T (wrap_uint32 (submit_count_ ctx + 1))).
  - cbn [submit_count_ queue_]. split; [lia|]. left. eauto.
  - cbn [submit_count_ queue_]. split; [lia|]. right. reflexivity.
Qed.

Lemma submit_cmd_to_gpu_resets (f : VkFence) (ctx : Context) :
  CommandBuffer_bool (cmd_ ctx) = true ->
  submit_count_ (submit_cmd_to_gpu f ctx) = 0
  /\ exists c, queue_ (submit_cmd_to_gpu f ctx) = queue_ ctx ++ [(c, f)].
Proof.
  intros Hv. unfold submit_cmd_to_gpu. rewrite Hv. ctx_simpl. eauto.
Qed.

(** C4. A queue submission resets the submission counter to zero.  Hence,
    with a threshold [T] of at least one, [N] recorded operations without a
    fence cause at most [ceil(N / T)] submissions whatever the counter was
    before; starting from a zero counter they cause exactly [N / T]
    submissions and leave [N mod T] operations pending, a function of [N]
    and [T] alone, and each submitted command buffer then holds exactly [T]
    operations. *)
Theorem batching_submission_count (ops : list Operation) (ctx : Context) :
  let T := cmdSubmitFrequency (config_ ctx) in
  let N := Z.of_nat (length ops) in
  let submitted := new_submissions ctx (run ops ctx) in
  1 <= T <= UINT32_MAX ->
  Forall no_fence ops ->
  (forall (f : VkFence) (c : Context),
      CommandBuffer_bool (cmd_ c) = true ->
      submit_count_ (submit_cmd_to_gpu f c) = 0)
  /\ (forall (op : Operation) (c : Context),
        new_submissions c (exec op c) <> [] -> submit_count_ (exec op c) = 0)
  /\ Z.of_nat (length submitted) <= div_up N T
  /\ (submit_count_ ctx = 0 ->
      Z.of_nat (length submitted) = N / T
      /\ submit_count_ (run ops ctx) = N mod T
      /\ (counter_matches_pending ctx -> Forall (full_batch T) submitted)).
Proof.
  intros T N submitted HT Hops.
  split; [|split; [|split]].
  - intros f c Hv. apply submit_cmd_to_gpu_resets, Hv.
  - intros op c. rewrite exec_new_submissions, exec_closed_form.
    unfold exec_result. destruct (will_submit _ _); [reflexivity | congruence].
  - subst submitted. destruct ops as [|op ops].
    + cbn [run foldl]. unfold new_submissions. rewrite drop_all.
      subst N. cbn [length]. unfold div_up.
      rewrite Z.div_0_l, Z.mod_0_l by lia. cbn. lia.
    + apply Forall_cons in Hops as [Hop Hops]. rewrite run_cons.
      destruct (exec_no_fence_step op ctx ltac:(fold T; lia) Hop)
        as [Hc Hq]. fold T in Hc.
      destruct (run_below_threshold ops (exec op ctx))
        as (qs & Hqs & Hlen & _ & _);
        [rewrite exec_config; fold T; lia
        | rewrite exec_config; fold T; lia
        | assumption |].
      rewrite exec_config in Hlen. fold T in Hlen.
      assert (HN : N = Z.of_nat (length ops) + 1)
        by (subst N; cbn [length]; lia).
      destruct (div_up_ceiling N T ltac:(lia)) as [Hceil _].
      assert (Hrest : Z.of_nat (length qs) * T
                      <= submit_count_ (exec op ctx) + Z.of_nat (length ops)).
      { rewrite Hlen, Z.mul_comm. apply Z.mul_div_le. lia. }
      destruct Hq as [(Hzero & s & Hq) | Hq].
      * rewrite (new_submissions_app ctx _ (s :: qs))
          by (rewrite Hqs, Hq, <- app_assoc; reflexivity).
        cbn [length]. rewrite Nat2Z.inj_succ. nia.
      * rewrite (new_submissions_app ctx _ qs) by (rewrite Hqs, Hq; reflexivity).
        nia.
  - intros Hzero. subst submitted.
    destruct (run_below_threshold ops ctx)
      as (qs & Hqs & Hlen & Hcount & Hbatch);
      [fold T; lia | fold T; lia | assumption |].
    fold T N in Hlen, Hcount, Hbatch.
    rewrite Hzero, Z.add_0_l in Hlen, Hcount.
    rewrite (new_submissions_app ctx _ qs Hqs).
    split; [exact Hlen|]. split; [exact Hcount|].
    intros Hpend. apply Hbatch, Hpend.
Qed.

Lemma batching_submission_count_witness :
  let ops :=
    replicate 5
      (OpCopy (mk_barrier 1 2) (ResBuffer (mk_buffer 3))
         (ResBuffer (mk_buffer 4)) (mk_uvec3 8 1 1) (mk_uvec3 0 0 0)
         (mk_uvec3 0 0 0) VK_NULL_HANDLE) in
  let ctx := new_context (mk_config 2) in
  Z.of_nat (length (new_submissions ctx (run ops ctx))) = 5 / 2
  /\ submit_count_ (run ops ctx) = 5 mod 2
  /\ Forall (full_batch 2) (new_submissions ctx (run ops ctx)).
Proof.
  intros ops ctx.
  destruct (batching_submission_count ops ctx) as (_ & _ & _ & H).
  - unfold UINT32_MAX. cbn. lia.
  - repeat constructor.
  - destruct H as (Hlen & Hcount & Hfull); [reflexivity|].
    split; [exact Hlen|]. split; [exact Hcount|].
    apply Hfull. reflexivity.
Defined.

Example five_copies_threshold_two :
  let ctx :=
    run (replicate 5
           (OpCopy (mk_barrier 1 2) (ResBuffer (mk_buffer 3))
              (ResBuffer (mk_buffer 4)) (mk_uvec3 8 1 1) (mk_uvec3 0 0 0)
              (mk_uvec3 0 0 0) VK_NULL_HANDLE))
      (new_context (mk_config 2)) in
  map (fun s => cmd_handle s.1) (queue_ ctx) = [1; 2]
  /\ submit_count_ ctx = 1
  /\ cmd_handle (cmd_ ctx) = 3.
Proof. vm_compute. auto. Qed.

(** ** Copy combinations *)

Lemma recorded_commands_map (h : Z) (cs : list Command) :
  recorded_commands (map (EvRecord h) cs) = cs.
Proof.
  induction cs as [|c cs IH]; [reflexivity|].
  cbn. unfold recorded_commands in IH. rewrite IH. reflexivity.
Qed.

Lemma recorded_commands_exec (op : Operation) (ctx : Context) :
  recorded_commands (exec_events op ctx) = op_commands op.
Proof.
  unfold exec_events, recording_events, recorded_commands.
  rewrite !omap_app. fold (recorded_commands
    (map (EvRecord (cmd_handle (opened ctx).2)) (op_commands op))).
  rewrite recorded_commands_map.
  unfold lock_events, begin_events, submit_events, unlock_events.
  destruct (op_fence op =? VK_NULL_HANDLE), (CommandBuffer_bool (cmd_ ctx)),
    (will_submit (op_fence op) ctx); cbn; rewrite ?app_nil_r; reflexivity.
Qed.

(** C5. [record_copy<S, D>], and with it [submit_copy<S, D>], is defined
    for exactly the four pairs buffer/buffer, image/image, image/buffer and
    buffer/image; every other pair of types selects the deleted primary
    template.  Every source/destination pair that can reach [submit_copy] at
    run time is one of the four, and the call records the copy command of
    the matching specialisation: there is no run-time rejection. *)
Theorem submit_copy_accepts_four_combinations :
  (forall S D : CppType,
      is_Some (record_copy_template S D)
      <-> (S = TVulkanBuffer /\ D = TVulkanBuffer)
          \/ (S = TVulkanImage /\ D = TVulkanImage)
          \/ (S = TVulkanImage /\ D = TVulkanBuffer)
          \/ (S = TVulkanBuffer /\ D = TVulkanImage))
  /\ (forall (pipeline_barrier : PipelineBarrier)
        (source destination : Resource)
        (copy_range src_offset dst_offset : uvec3) (fence_handle : VkFence)
        (ctx : Context),
        exists (sp : CopySpecialization) (c : Command),
          record_copy_template (type_of source) (type_of destination)
          = Some sp
          /\ command_specialization c = Some sp
          /\ recorded_commands
               (new_events ctx
                  (submit_copy pipeline_barrier source destination copy_range
                     src_offset dst_offset fence_handle ctx))
             = [CmdInsertBarrier pipeline_barrier; c]).
Proof.
  split.
  - intros S D. split.
    + intros [sp Hsp]. destruct S, D; cbn in Hsp; try discriminate; tauto.
    + intros [[-> ->] | [[-> ->] | [[-> ->] | [-> ->]]]]; cbn; eexists;
        reflexivity.
  - intros pb s d r so do f ctx.
    change (submit_copy pb s d r so do f ctx)
      with (exec (OpCopy pb s d r so do f) ctx).
    rewrite exec_new_events, recorded_commands_exec. cbn [op_commands].
    destruct s, d; cbn; do 2 eexists; repeat split; reflexivity.
Qed.

Example record_copy_other_type_deleted :
  record_copy_template (TOther "at::Tensor") TVulkanBuffer = None
  /\ record_copy_template TVulkanImage (TOther "int") = None.
Proof. split; reflexivity. Qed.

(** ** Recording lock *)

Lemma recording_and_submit_events_no_mutex (op : Operation) (ctx : Context) :
  forallb (fun e => negb (is_mutex_event e))
    (recording_events op ctx ++ submit_events op ctx) = true.
Proof.
  unfold recording_events, submit_events, begin_events.
  rewrite !forallb_app, !andb_true_iff. split; [split|].
  - destruct (CommandBuffer_bool (cmd_ ctx)); reflexivity.
  - induction (op_commands op) as [|c cs IH]; [reflexivity|exact IH].
  - destruct (will_submit (op_fence op) ctx); reflexivity.
Qed.

(** C6. A recorded operation (copy or compute job) acquires [cmd_mutex_] if
    and only if its fence handle is null.  With a null fence the mutex is
    locked before anything else, everything the operation records (and its
    queue submission, if any) happens before the mutex is unlocked, and the
    unlock is the last effect.  With a non-null fence the operation performs
    the same recording with no mutex operation at all. *)
Theorem recording_lock_taken_iff_no_fence (op : Operation) (ctx : Context) :
  exists body : list Event,
    forallb (fun e => negb (is_mutex_event e)) body = true
    /\ recorded_commands body = op_commands op
    /\ (op_fence op = VK_NULL_HANDLE ->
        new_events ctx (exec op ctx)
        = [EvLock cmd_mutex_] ++ body ++ [EvUnlock cmd_mutex_])
    /\ (op_fence op <> VK_NULL_HANDLE ->
        new_events ctx (exec op ctx) = body)
    /\ (In (EvLock cmd_mutex_) (new_events ctx (exec op ctx))
        <-> op_fence op = VK_NULL_HANDLE).
Proof.
  exists (recording_events op ctx ++ submit_events op ctx).
  pose proof (recording_and_submit_events_no_mutex op ctx) as Hno.
  assert (Hrec : recorded_commands
                   (recording_events op ctx ++ submit_events op ctx)
                 = op_commands op).
  { pose proof (recorded_commands_exec op ctx) as H.
    unfold exec_events, recorded_commands in *.
    rewrite !omap_app in *.
    unfold lock_events, unlock_events in H.
    destruct (op_fence op =? VK_NULL_HANDLE); cbn in H;
      rewrite ?app_nil_r in H; exact H. }
  rewrite exec_new_events. unfold exec_events, lock_events, unlock_events.
  split; [exact Hno|]. split; [exact Hrec|].
  destruct (Z.eqb_spec (op_fence op) VK_NULL_HANDLE) as [Hf|Hf].
  - split; [|split].
    + intros _. rewrite <- !app_assoc. reflexivity.
    + intros Hne. contradiction.
    + split; [intros _; exact Hf | intros _; left; reflexivity].
  - split; [|split].
    + intros He. contradiction.
    + intros _. cbn [app]. rewrite app_nil_r. reflexivity.
    + split; [|intros He; contradiction].
      cbn [app]. rewrite app_nil_r. intros Hin.
      rewrite forallb_forall in Hno. specialize (Hno _ Hin). discriminate.
Qed.

Lemma recording_lock_taken_iff_no_fence_witness :
  In (EvLock cmd_mutex_)
    (new_events (new_context (mk_config 4))
       (exec (OpCopy (mk_barrier 1 2) (ResImage (mk_image 3))
                (ResBuffer (mk_buffer 4)) (mk_uvec3 2 2 1) (mk_uvec3 0 0 0)
                (mk_uvec3 0 0 0) VK_NULL_HANDLE)
          (new_context (mk_config 4)))).
Proof.
  destruct (recording_lock_taken_iff_no_fence
              (OpCopy (mk_barrier 1 2) (ResImage (mk_image 3))
                 (ResBuffer (mk_buffer 4)) (mk_uvec3 2 2 1) (mk_uvec3 0 0 0)
                 (mk_uvec3 0 0 0) VK_NULL_HANDLE)
              (new_context (mk_config 4))) as (body & _ & _ & _ & _ & H).
  apply H. reflexivity.
Defined.

Example unfenced_copy_locks_around_recording :
  new_events (new_context (mk_config 4))
    (exec (OpCopy (mk_barrier 1 2) (ResImage (mk_image 3))
             (ResBuffer (mk_buffer 4)) (mk_uvec3 2 2 1) (mk_uvec3 0 0 0)
             (mk_uvec3 0 0 0) VK_NULL_HANDLE)
       (new_context (mk_config 4)))
  = [EvLock cmd_mutex_;
     EvBegin 1;
     EvRecord 1 (CmdInsertBarrier (mk_barrier 1 2));
     EvRecord 1
       (CmdCopyTextureToBuffer (mk_image 3) (mk_buffer 4) (mk_uvec3 2 2 1)
          (mk_uvec3 0 0 0) (mk_uvec3 0 0 0));
     EvUnlock cmd_mutex_].
Proof. reflexivity. Qed.

Example fenced_copy_takes_no_lock :
  new_events (new_context (mk_config 4))
    (exec (OpCopy (mk_barrier 1 2) (ResImage (mk_image 3))
             (ResBuffer (mk_buffer 4)) (mk_uvec3 2 2 1) (mk_uvec3 0 0 0)
             (mk_uvec3 0 0 0) 77)
       (new_context (mk_config 4)))
  = [EvBegin 1;
     EvRecord 1 (CmdInsertBarrier (mk_barrier 1 2));
     EvRecord 1
       (CmdCopyTextureToBuffer (mk_image 3) (mk_buffer 4) (mk_uvec3 2 2 1)
          (mk_uvec3 0 0 0) (mk_uvec3 0 0 0));
     EvEnd 1;
     EvQueueSubmit 1 77].
Proof. reflexivity. Qed.

(** ** Deferred cleanup *)

Lemma moved_from_buffer_invalid : VulkanBuffer_bool moved_from_buffer = false.
Proof. reflexivity. Qed.

(** Destroying a moved-from [VulkanBuffer] does nothing. *)
Lemma VulkanBuffer_destroy_moved_from (ctx : Context) :
  VulkanBuffer_destroy moved_from_buffer ctx = ctx.
Proof. reflexivity. Qed.

Lemma StorageBuffer_destroy_eq (w : StorageBuffer) (ctx : Context) :
  StorageBuffer_destroy w ctx
  = (register_buffer_cleanup (storage_vulkan_buffer_ w) ctx).1.
Proof. reflexivity. Qed.

Lemma UniformParamsBuffer_destroy_eq (w : UniformParamsBuffer) (ctx : Context) :
  UniformParamsBuffer_destroy w ctx
  = if VulkanBuffer_bool (params_vulkan_buffer_ w)
    then (register_buffer_cleanup (params_vulkan_buffer_ w) ctx).1
    else ctx.
Proof.
  unfold UniformParamsBuffer_destroy.
  destruct (VulkanBuffer_bool (params_vulkan_buffer_ w)) eqn:Hv.
  - reflexivity.
  - unfold VulkanBuffer_destroy. rewrite Hv. reflexivity.
Qed.

Lemma defers_same (before after : Context) :
  released_ after = released_ before ->
  buffers_to_clear_ after = buffers_to_clear_ before ->
  images_to_clear_ after = images_to_clear_ before ->
  defers before after.
Proof.
  intros Hr Hb Hi.
  split; [exact Hr|]. split; exists []; rewrite app_nil_r; assumption.
Qed.

Lemma defers_refl (ctx : Context) : defers ctx ctx.
Proof. apply defers_same; reflexivity. Qed.

Lemma defers_trans (a b c : Context) : defers a b -> defers b c -> defers a c.
Proof.
  intros (Hr1 & [bs1 Hb1] & [is1 Hi1]) (Hr2 & [bs2 Hb2] & [is2 Hi2]).
  split; [congruence|]. split.
  - exists (bs1 ++ bs2). rewrite Hb2, Hb1, app_assoc. reflexivity.
  - exists (is1 ++ is2). rewrite Hi2, Hi1, app_assoc. reflexivity.
Qed.

Lemma register_buffer_cleanup_defers (b : VulkanBuffer) (ctx : Context) :
  defers ctx (register_buffer_cleanup b ctx).1.
Proof.
  split; [reflexivity|]. split; [exists [b] | exists []]; cbn;
    rewrite ?app_nil_r; reflexivity.
Qed.

Lemma register_image_cleanup_defers (i : VulkanImage) (ctx : Context) :
  defers ctx (register_image_cleanup i ctx).1.
Proof.
  split; [reflexivity|]. split; [exists [] | exists [i]]; cbn;
    rewrite ?app_nil_r; reflexivity.
Qed.

Lemma call_defers (c : Call) (ctx : Context) :
  c <> CallFlush -> defers ctx (call c ctx).
Proof.
  intros Hc. destruct c as [|op|b|i|w|w|]; cbn [call].
  - rewrite set_cmd_closed_form. apply defers_same; reflexivity.
  - rewrite exec_closed_form. unfold exec_result.
    destruct (will_submit _ _); apply defers_same; reflexivity.
  - apply register_buffer_cleanup_defers.
  - apply register_image_cleanup_defers.
  - rewrite UniformParamsBuffer_destroy_eq.
    destruct (VulkanBuffer_bool _);
      [apply register_buffer_cleanup_defers | apply defers_refl].
  - rewrite StorageBuffer_destroy_eq. apply register_buffer_cleanup_defers.
  - contradiction.
Qed.

Lemma calls_defers (cs : list Call) :
  forall ctx : Context,
    Forall (fun c => c <> CallFlush) cs -> defers ctx (calls cs ctx).
Proof.
  induction cs as [|c cs IH]; intros ctx Hcs.
  - apply defers_refl.
  - apply Forall_cons in Hcs as [Hc Hcs]. cbn [calls foldl].
    eapply defers_trans; [apply call_defers, Hc | apply IH, Hcs].
Qed.

Lemma destroy_buffers_fields (bs : list VulkanBuffer) :
  forall ctx : Context,
    let after := foldl (fun c b => VulkanBuffer_destroy b c) ctx bs in
    released_ after = released_ ctx ++ released_by_buffers bs
    /\ buffers_to_clear_ after = buffers_to_clear_ ctx
    /\ images_to_clear_ after = images_to_clear_ ctx.
Proof.
  induction bs as [|b bs IH]; intros ctx; cbn [foldl].
  - cbn. rewrite app_nil_r. auto.
  - destruct (IH (VulkanBuffer_destroy b ctx)) as (Hr & Hb & Hi).
    cbn zeta. rewrite Hr, Hb, Hi.
    unfold VulkanBuffer_destroy, released_by_buffers. cbn [omap list_omap].
    destruct (VulkanBuffer_bool b); ctx_simpl;
      rewrite <- ?app_assoc; auto.
Qed.

Lemma destroy_images_fields (ims : list VulkanImage) :
  forall ctx : Context,
    let after := foldl (fun c i => VulkanImage_destroy i c) ctx ims in
    released_ after = released_ ctx ++ released_by_images ims
    /\ buffers_to_clear_ after = buffers_to_clear_ ctx
    /\ images_to_clear_ after = images_to_clear_ ctx.
Proof.
  induction ims as [|i ims IH]; intros ctx; cbn [foldl].
  - cbn. rewrite app_nil_r. auto.
  - destruct (IH (VulkanImage_destroy i ctx)) as (Hr & Hb & Hi).
    cbn zeta. rewrite Hr, Hb, Hi.
    unfold VulkanImage_destroy, released_by_images. cbn [omap list_omap].
    destruct (VulkanImage_bool i); ctx_simpl;
      rewrite <- ?app_assoc; auto.
Qed.

Lemma submit_cmd_to_gpu_defers (f : VkFence) (ctx : Context) :
  released_ (submit_cmd_to_gpu f ctx) = released_ ctx
  /\ buffers_to_clear_ (submit_cmd_to_gpu f ctx) = buffers_to_clear_ ctx
  /\ images_to_clear_ (submit_cmd_to_gpu f ctx) = images_to_clear_ ctx.
Proof.
  unfold submit_cmd_to_gpu. destruct (CommandBuffer_bool (cmd_ ctx)); auto.
Qed.

(** [flush] releases exactly what the two lists hold, and empties them. *)
Lemma flush_drains (ctx : Context) :
  released_ (flush ctx)
  = released_ ctx
    ++ released_by_buffers (buffers_to_clear_ ctx)
    ++ released_by_images (images_to_clear_ ctx)
  /\ buffers_to_clear_ (flush ctx) = []
  /\ images_to_clear_ (flush ctx) = [].
Proof.
  destruct (submit_cmd_to_gpu_defers VK_NULL_HANDLE ctx) as (Hr & Hb & Hi).
  unfold flush.
  set (c0 := submit_cmd_to_gpu VK_NULL_HANDLE ctx) in *.
  set (c1 := lock image_clearlist_mutex_ (lock buffer_clearlist_mutex_ c0)).
  assert (H1 : released_ c1 = released_ ctx
               /\ buffers_to_clear_ c1 = buffers_to_clear_ ctx
               /\ images_to_clear_ c1 = images_to_clear_ ctx) by (cbn; auto).
  destruct H1 as (Hr1 & Hb1 & Hi1).
  destruct (destroy_buffers_fields (buffers_to_clear_ c1) c1)
    as (Hr2 & Hb2 & Hi2).
  set (c2 := foldl (fun c b => VulkanBuffer_destroy b c) c1
               (buffers_to_clear_ c1)) in *.
  set (c3 := with_buffers_to_clear [] c2).
  assert (H3 : released_ c3 = released_ c2
               /\ images_to_clear_ c3 = images_to_clear_ c2) by (cbn; auto).
  destruct H3 as (Hr3 & Hi3).
  destruct (destroy_images_fields (images_to_clear_ c3) c3)
    as (Hr4 & Hb4 & Hi4).
  set (c4 := foldl (fun c i => VulkanImage_destroy i c) c3
               (images_to_clear_ c3)) in *.
  cbn [released_ buffers_to_clear_ images_to_clear_ unlock emit
       with_images_to_clear].
  split; [|split; [|reflexivity]].
  - rewrite Hr4, Hr3, Hr2, Hi3, Hi2, Hr1, Hb1, Hi1, <- app_assoc.
    reflexivity.
  - rewrite Hb4. reflexivity.
Qed.

Lemma released_by_buffers_In (b : VulkanBuffer) (bs : list VulkanBuffer) :
  In b bs -> VulkanBuffer_bool b = true ->
  In (AllocBuffer (buffer_handle b)) (released_by_buffers bs).
Proof.
  intros Hin Hv. induction bs as [|x bs IH]; [contradiction|].
  unfold released_by_buffers. cbn [omap list_omap].
  destruct Hin as [->|Hin].
  - rewrite Hv. left. reflexivity.
  - destruct (VulkanBuffer_bool x); [right|]; apply IH, Hin.
Qed.

(** C7. Destroying a [UniformParamsBuffer] or a [StorageBuffer] that holds
    a GPU buffer releases no device memory: the buffer is moved to the end
    of the context's [buffers_to_clear_] and the wrapper is left with a
    moved-from member.  The allocation stays unreleased, and in the list,
    across every later call that is not [flush]; a later [flush] drains the
    list and releases it. *)
Theorem wrapper_destruction_defers_release
  (b : VulkanBuffer) (ctx destroyed : Context) (later : list Call) :
  VulkanBuffer_bool b = true ->
  destroys b ctx destroyed ->
  Forall (fun c => c <> CallFlush) later ->
  released_ destroyed = released_ ctx
  /\ buffers_to_clear_ destroyed = buffers_to_clear_ ctx ++ [b]
  /\ images_to_clear_ destroyed = images_to_clear_ ctx
  /\ (register_buffer_cleanup b ctx).2 = moved_from_buffer
  /\ released_ (calls later destroyed) = released_ ctx
  /\ In b (buffers_to_clear_ (calls later destroyed))
  /\ (exists others,
        released_ (flush (calls later destroyed)) = released_ ctx ++ others
        /\ In (AllocBuffer (buffer_handle b)) others)
  /\ buffers_to_clear_ (flush (calls later destroyed)) = [].
Proof.
  intros Hv Hd Hlater.
  assert (Hreg : destroyed = (register_buffer_cleanup b ctx).1).
  { destruct Hd.
    - rewrite UniformParamsBuffer_destroy_eq. cbn [params_vulkan_buffer_].
      rewrite Hv. reflexivity.
    - apply StorageBuffer_destroy_eq. }
  assert (Hbs : buffers_to_clear_ destroyed = buffers_to_clear_ ctx ++ [b])
    by (rewrite Hreg; reflexivity).
  assert (Hrel : released_ destroyed = released_ ctx)
    by (rewrite Hreg; reflexivity).
  destruct (calls_defers later destroyed Hlater) as (Hr & [bs Hb] & _).
  assert (Hin : In b (buffers_to_clear_ (calls later destroyed))).
  { rewrite Hb, Hbs. apply in_or_app. left. apply in_or_app. right.
    left. reflexivity. }
  destruct (flush_drains (calls later destroyed)) as (Hf & Hfb & _).
  split; [exact Hrel|]. split; [exact Hbs|].
  split; [rewrite Hreg; reflexivity|]. split; [reflexivity|].
  split; [congruence|]. split; [exact Hin|]. split; [|exact Hfb].
  eexists. split.
  - rewrite Hf, Hr, Hrel. reflexivity.
  - apply in_or_app. left. apply released_by_buffers_In; assumption.
Qed.

Lemma wrapper_destruction_defers_release_witness :
  let ctx := new_context (mk_config 2) in
  let destroyed :=
    UniformParamsBuffer_destroy (mk_params_buffer (mk_buffer 42)) ctx in
  let later :=
    [CallOperation
       (OpCopy (mk_barrier 1 2) (ResBuffer (mk_buffer 3))
          (ResBuffer (mk_buffer 4)) (mk_uvec3 8 1 1) (mk_uvec3 0 0 0)
          (mk_uvec3 0 0 0) VK_NULL_HANDLE);
     CallDestroyStorage (mk_storage_buffer 16 (mk_buffer 43))] in
  released_ (calls later destroyed) = []
  /\ In (mk_buffer 42) (buffers_to_clear_ (calls later destroyed))
  /\ buffers_to_clear_ (flush (calls later destroyed)) = [].
Proof.
  intros ctx destroyed later.
  destruct (wrapper_destruction_defers_release (mk_buffer 42) ctx destroyed
              later) as (_ & _ & _ & _ & Hr & Hin & _ & Hf).
  - reflexivity.
  - apply destroys_params.
  - repeat constructor; discriminate.
  - split; [exact Hr|]. split; [exact Hin | exact Hf].
Defined.

Example destroy_then_flush_releases :
  let ctx :=
    StorageBuffer_destroy (mk_storage_buffer 16 (mk_buffer 43))
      (UniformParamsBuffer_destroy (mk_params_buffer (mk_buffer 42))
         (new_context (mk_config 2))) in
  released_ ctx = []
  /\ buffers_to_clear_ ctx = [mk_buffer 42; mk_buffer 43]
  /\ released_ (flush ctx) = [AllocBuffer 42; AllocBuffer 43].
Proof. repeat split; reflexivity. Qed.

(** C8. [register_buffer_cleanup] and [register_image_cleanup] each move
    the resource to the end of the list of its own class, between a lock
    and an unlock of that class's own mutex, leaving the caller's object
    moved-from.  Registering a buffer leaves [images_to_clear_] as it was
    and registering an image leaves [buffers_to_clear_] as it was; neither
    releases device memory nor touches the command buffer, the counter or
    the queue. *)
Theorem register_cleanup_frame
  (buffer : VulkanBuffer) (image : VulkanImage) (ctx : Context) :
  let rb := register_buffer_cleanup buffer ctx in
  let ri := register_image_cleanup image ctx in
  (buffers_to_clear_ rb.1 = buffers_to_clear_ ctx ++ [buffer]
   /\ rb.2 = moved_from_buffer
   /\ new_events ctx rb.1
      = [EvLock buffer_clearlist_mutex_;
         EvEmplace (AllocBuffer (buffer_handle buffer));
         EvUnlock buffer_clearlist_mutex_]
   /\ images_to_clear_ rb.1 = images_to_clear_ ctx
   /\ released_ rb.1 = released_ ctx
   /\ cmd_ rb.1 = cmd_ ctx
   /\ submit_count_ rb.1 = submit_count_ ctx
   /\ queue_ rb.1 = queue_ ctx)
  /\ (images_to_clear_ ri.1 = images_to_clear_ ctx ++ [image]
      /\ ri.2 = moved_from_image
      /\ new_events ctx ri.1
         = [EvLock image_clearlist_mutex_;
            EvEmplace (AllocImage (image_handle image));
            EvUnlock image_clearlist_mutex_]
      /\ buffers_to_clear_ ri.1 = buffers_to_clear_ ctx
      /\ released_ ri.1 = released_ ctx
      /\ cmd_ ri.1 = cmd_ ctx
      /\ submit_count_ ri.1 = submit_count_ ctx
      /\ queue_ ri.1 = queue_ ctx).
Proof.
  cbn zeta. split.
  - repeat split; try reflexivity.
    apply new_events_app. cbn. rewrite <- !app_assoc. reflexivity.
  - repeat split; try reflexivity.
    apply new_events_app. cbn. rewrite <- !app_assoc. reflexivity.
Qed.

(** ** The open command buffer *)

Lemma submit_cmd_to_gpu_queue (f : VkFence) (ctx : Context) :
  exists qs,
    queue_ (submit_cmd_to_gpu f ctx) = queue_ ctx ++ qs
    /\ Forall (fun s => cmd_state s.1 = Submitted) qs.
Proof.
  unfold submit_cmd_to_gpu. destruct (CommandBuffer_bool (cmd_ ctx)).
  - eexists. split; [reflexivity|]. repeat constructor.
  - exists []. rewrite app_nil_r. split; [reflexivity | constructor].
Qed.

Lemma destroy_buffers_queue (bs : list VulkanBuffer) :
  forall ctx : Context,
    queue_ (foldl (fun c b => VulkanBuffer_destroy b c) ctx bs) = queue_ ctx.
Proof.
  induction bs as [|b bs IH]; intros ctx; cbn [foldl]; [reflexivity|].
  rewrite IH. unfold VulkanBuffer_destroy.
  destruct (VulkanBuffer_bool b); reflexivity.
Qed.

Lemma destroy_images_queue (ims : list VulkanImage) :
  forall ctx : Context,
    queue_ (foldl (fun c i => VulkanImage_destroy i c) ctx ims) = queue_ ctx.
Proof.
  induction ims as [|i ims IH]; intros ctx; cbn [foldl]; [reflexivity|].
  rewrite IH. unfold VulkanImage_destroy.
  destruct (VulkanImage_bool i); reflexivity.
Qed.

Lemma flush_queue (ctx : Context) :
  queue_ (flush ctx) = queue_ (submit_cmd_to_gpu VK_NULL_HANDLE ctx).
Proof.
  unfold flush. cbn [queue_ unlock emit with_images_to_clear].
  rewrite destroy_images_queue. cbn [queue_ with_buffers_to_clear].
  rewrite destroy_buffers_queue. reflexivity.
Qed.

Lemma call_queue (c : Call) (ctx : Context) :
  exists qs,
    queue_ (call c ctx) = queue_ ctx ++ qs
    /\ Forall (fun s => cmd_state s.1 = Submitted) qs.
Proof.
  assert (Hsame : forall after,
             queue_ after = queue_ ctx ->
             exists qs, queue_ after = queue_ ctx ++ qs
                        /\ Forall (fun s => cmd_state s.1 = Submitted) qs).
  { intros after ->. exists []. rewrite app_nil_r.
    split; [reflexivity | constructor]. }
  destruct c as [|op|b|i|w|w|]; cbn [call].
  - apply Hsame. rewrite set_cmd_closed_form. reflexivity.
  - rewrite exec_closed_form. unfold exec_result.
    destruct (will_submit _ _); [|apply Hsame; reflexivity].
    eexists. split; [reflexivity|]. repeat constructor.
  - apply Hsame. reflexivity.
  - apply Hsame. reflexivity.
  - apply Hsame. rewrite UniformParamsBuffer_destroy_eq.
    destruct (VulkanBuffer_bool _); reflexivity.
  - apply Hsame. reflexivity.
  - rewrite flush_queue. apply submit_cmd_to_gpu_queue.
Qed.

Lemma calls_queue_all_submitted (cs : list Call) :
  forall ctx : Context,
    queue_all_submitted ctx -> queue_all_submitted (calls cs ctx).
Proof.
  induction cs as [|c cs IH]; intros ctx Hq; [exact Hq|].
  cbn [calls foldl]. apply IH.
  destruct (call_queue c ctx) as (qs & Hqs & Hall).
  unfold queue_all_submitted. rewrite Hqs. apply Forall_app. split; assumption.
Qed.

Lemma open_buffers_at_most_one (ctx : Context) :
  queue_all_submitted ctx -> (length (open_buffers ctx) <= 1)%nat.
Proof.
  unfold queue_all_submitted, open_buffers. intros Hq.
  assert (Hnone : List.filter is_recording (map fst (queue_ ctx)) = []).
  { induction Hq as [|s q Hs Hq IH]; [reflexivity|].
    cbn [map List.filter]. unfold is_recording at 1. rewrite Hs. exact IH. }
  cbn [List.filter]. rewrite Hnone.
  destruct (is_recording (cmd_ ctx)); cbn; lia.
Qed.

Lemma set_cmd_valid (ctx : Context) :
  CommandBuffer_bool (cmd_ (set_cmd ctx)) = true.
Proof.
  destruct (set_cmd_opened ctx) as [_ ->]. apply opened_valid.
Qed.

(** C9. [set_cmd] is idempotent.  With no command buffer open it takes
    one from the pool and begins recording on it; with one open it changes
    nothing.  In every context reached from a fresh one by any sequence of
    calls, at most one command buffer is begun and not yet submitted. *)
Theorem set_cmd_idempotent_single_open_buffer
  (ctx : Context) (config : ContextConfig) (cs : list Call) :
  set_cmd (set_cmd ctx) = set_cmd ctx
  /\ (CommandBuffer_bool (cmd_ ctx) = true -> set_cmd ctx = ctx)
  /\ (CommandBuffer_bool (cmd_ ctx) = false ->
      cmd_ (set_cmd ctx)
      = CommandBuffer_begin (get_new_cmd (command_pool_ ctx)).2
      /\ command_pool_ (set_cmd ctx) = (get_new_cmd (command_pool_ ctx)).1
      /\ is_recording (cmd_ (set_cmd ctx)) = true
      /\ new_events ctx (set_cmd ctx)
         = [EvBegin (cmd_handle (get_new_cmd (command_pool_ ctx)).2)])
  /\ (length (open_buffers (calls cs (new_context config))) <= 1)%nat.
Proof.
  split; [|split; [|split]].
  - unfold set_cmd at 1. rewrite set_cmd_valid. reflexivity.
  - intros Hv. unfold set_cmd. rewrite Hv. reflexivity.
  - intros Hv. unfold set_cmd. rewrite Hv. cbn [negb].
    repeat split; try reflexivity.
    apply new_events_app. reflexivity.
  - apply open_buffers_at_most_one, calls_queue_all_submitted. constructor.
Qed.

Lemma set_cmd_idempotent_single_open_buffer_witness :
  let ctx := new_context (mk_config 3) in
  cmd_ (set_cmd ctx) = mk_cmd 1 Recording []
  /\ set_cmd (set_cmd ctx) = set_cmd ctx.
Proof.
  intros ctx.
  destruct (set_cmd_idempotent_single_open_buffer ctx (mk_config 3) [])
    as (Hidem & _ & Hnew & _).
  destruct Hnew as (Hcmd & _); [reflexivity|].
  split; [exact Hcmd | exact Hidem].
Defined.

Example one_open_buffer_after_mixed_calls :
  let ctx :=
    calls
      [CallOperation
         (OpCopy (mk_barrier 1 2) (ResBuffer (mk_buffer 3))
            (ResBuffer (mk_buffer 4)) (mk_uvec3 8 1 1) (mk_uvec3 0 0 0)
            (mk_uvec3 0 0 0) 5);
       CallSetCmd;
       CallSetCmd;
       CallOperation
         (OpCopy (mk_barrier 1 2) (ResBuffer (mk_buffer 3))
            (ResBuffer (mk_buffer 4)) (mk_uvec3 8 1 1) (mk_uvec3 0 0 0)
            (mk_uvec3 0 0 0) VK_NULL_HANDLE)]
      (new_context (mk_config 3)) in
  map cmd_handle (open_buffers ctx) = [2]
  /\ map (fun s => cmd_handle s.1) (queue_ ctx) = [1].
Proof. split; reflexivity. Qed.

(** ** Moves and single registration *)










Example moved_from_params_buffer_registers_nothing :
  let '(new, old) :=
    UniformParamsBuffer_move (mk_params_buffer (mk_buffer 9)) in
  let ctx := new_context (mk_config 1) in
  UniformParamsBuffer_destroy old ctx = ctx
  /\ buffers_to_clear_ (UniformParamsBuffer_destroy new ctx) = [mk_buffer 9].
Proof. split; reflexivity. Qed.

(** * Further properties *)

(** ** Calls other than the operations *)

(** The cleanup calls leave everything that concerns recording alone and
    extend the cleanup lists by what they register. *)
Lemma cleanup_call_fields (c : Call) (ctx : Context) :
  is_cleanup_call c = true ->
  config_ (call c ctx) = config_ ctx
  /\ command_pool_ (call c ctx) = command_pool_ ctx
  /\ cmd_ (call c ctx) = cmd_ ctx
  /\ submit_count_ (call c ctx) = submit_count_ ctx
  /\ queue_ (call c ctx) = queue_ ctx
  /\ released_ (call c ctx) = released_ ctx
  /\ buffers_to_clear_ (call c ctx) = buffers_to_clear_ ctx ++ call_buffers c
  /\ images_to_clear_ (call c ctx) = images_to_clear_ ctx ++ call_images c.
Proof.
  destruct c as [|op|b|i|w|w|]; try discriminate; intros _;
    cbn [call call_buffers call_images].
  - cbn. rewrite app_nil_r. tauto.
  - cbn. rewrite app_nil_r. tauto.
  - rewrite UniformParamsBuffer_destroy_eq.
    destruct (VulkanBuffer_bool (params_vulkan_buffer_ w)); cbn;
      rewrite !app_nil_r; tauto.
  - cbn. rewrite app_nil_r. tauto.
Qed.

Lemma call_cases (c : Call) :
  not_flush c ->
  c = CallSetCmd \/ (exists op, c = CallOperation op)
  \/ is_cleanup_call c = true.
Proof.
  intros Hc. destruct c; eauto; contradiction.
Qed.

Lemma calls_cons (c : Call) (cs : list Call) (ctx : Context) :
  calls (c :: cs) ctx = calls cs (call c ctx).
Proof. reflexivity. Qed.

Lemma calls_snoc (cs : list Call) (c : Call) (ctx : Context) :
  calls (cs ++ [c]) ctx = call c (calls cs ctx).
Proof. unfold calls. rewrite foldl_app. reflexivity. Qed.

Lemma recording_call_fields (c : Call) (ctx : Context) :
  c = CallSetCmd \/ (exists op, c = CallOperation op) ->
  config_ (call c ctx) = config_ ctx
  /\ buffers_to_clear_ (call c ctx) = buffers_to_clear_ ctx
  /\ images_to_clear_ (call c ctx) = images_to_clear_ ctx
  /\ released_ (call c ctx) = released_ ctx.
Proof.
  intros [-> | [op ->]]; cbn [call].
  - rewrite set_cmd_closed_form. tauto.
  - rewrite exec_closed_form. unfold exec_result.
    destruct (will_submit _ _); cbn; tauto.
Qed.

Lemma call_cleanup_step (c : Call) (ctx : Context) :
  not_flush c ->
  buffers_to_clear_ (call c ctx) = buffers_to_clear_ ctx ++ call_buffers c
  /\ images_to_clear_ (call c ctx) = images_to_clear_ ctx ++ call_images c
  /\ released_ (call c ctx) = released_ ctx.
Proof.
  intros Hc. destruct (call_cases c Hc) as [H | [H | H]].
  - destruct (recording_call_fields c ctx (or_introl H)) as (_ & -> & -> & ->).
    subst c. cbn. rewrite !app_nil_r. tauto.
  - destruct (recording_call_fields c ctx (or_intror H)) as (_ & -> & -> & ->).
    destruct H as [op ->]. cbn. rewrite !app_nil_r. tauto.
  - destruct (cleanup_call_fields c ctx H) as (_ & _ & _ & _ & _ & Hr & Hb & Hi).
    tauto.
Qed.

(** ** Cleanup lists *)

(** X1. Over any sequence of calls defined in the header, the buffer list
    grows by exactly the buffers registered, in call order: one entry per
    [register_buffer_cleanup], one per destroyed [StorageBuffer], one per
    destroyed [UniformParamsBuffer] that still holds a buffer and none for a
    moved-from one.  The image list grows by exactly the images registered.
    Nothing is removed from either list and no allocation is released. *)
Theorem cleanup_lists_account_for_every_registration
  (cs : list Call) (ctx : Context) :
  Forall not_flush cs ->
  buffers_to_clear_ (calls cs ctx)
  = buffers_to_clear_ ctx ++ concat (map call_buffers cs)
  /\ images_to_clear_ (calls cs ctx)
     = images_to_clear_ ctx ++ concat (map call_images cs)
  /\ released_ (calls cs ctx) = released_ ctx.
Proof.
  revert ctx. induction cs as [|c cs IH]; intros ctx Hcs.
  - cbn. rewrite !app_nil_r. tauto.
  - apply Forall_cons in Hcs as [Hc Hcs]. rewrite calls_cons.
    destruct (IH (call c ctx) Hcs) as (Hb & Hi & Hr).
    destruct (call_cleanup_step c ctx Hc) as (Hb1 & Hi1 & Hr1).
    rewrite Hb, Hi, Hr, Hb1, Hi1, Hr1. cbn [map concat].
    rewrite <- !app_assoc. tauto.
Qed.

Lemma cleanup_lists_account_for_every_registration_witness :
  let cs :=
    [CallDestroyParams (mk_params_buffer (mk_buffer 5));
     CallOperation
       (OpCopy (mk_barrier 1 2) (ResBuffer (mk_buffer 3))
          (ResBuffer (mk_buffer 4)) (mk_uvec3 8 1 1) (mk_uvec3 0 0 0)
          (mk_uvec3 0 0 0) 9);
     CallDestroyParams (mk_params_buffer moved_from_buffer);
     CallRegisterImage (mk_image 6);
     CallDestroyStorage (mk_storage_buffer 4 (mk_buffer 7))] in
  buffers_to_clear_ (calls cs (new_context (mk_config 2)))
  = [mk_buffer 5; mk_buffer 7]
  /\ images_to_clear_ (calls cs (new_context (mk_config 2))) = [mk_image 6].
Proof.
  intros cs.
  destruct (cleanup_lists_account_for_every_registration cs
              (new_context (mk_config 2))) as (Hb & Hi & _).
  - repeat constructor; discriminate.
  - split; [exact Hb | exact Hi].
Defined.

(** ** Command buffers taken from the pool *)

Lemma opened_accounted (ctx : Context) :
  pool_accounted ctx ->
  cmd_state (opened ctx).2 = Recording
  /\ cmd_handle (opened ctx).2 = Z.of_nat (S (length (queue_ ctx)))
  /\ pool_in_use (opened ctx).1 = S (length (queue_ ctx))
  /\ cmd_recorded (opened ctx).2 = cmd_recorded (cmd_ ctx).
Proof.
  intros [_ H]. unfold opened.
  destruct (CommandBuffer_bool (cmd_ ctx)).
  - cbn [fst snd]. tauto.
  - destruct H as [-> ->]. cbn. tauto.
Qed.

Lemma pool_accounted_fields (a b : Context) :
  queue_ a = queue_ b -> cmd_ a = cmd_ b ->
  command_pool_ a = command_pool_ b ->
  pool_accounted b -> pool_accounted a.
Proof.
  unfold pool_accounted. intros -> -> ->. tauto.
Qed.

Lemma call_pool_accounted (c : Call) (ctx : Context) :
  not_flush c -> pool_accounted ctx -> pool_accounted (call c ctx).
Proof.
  intros Hc Hinv.
  destruct (opened_accounted ctx Hinv) as (Hst & Hh & Hp & _).
  pose proof (opened_valid ctx) as Hv.
  destruct (call_cases c Hc) as [-> | [[op ->] | H]]; cbn [call].
  - rewrite set_cmd_closed_form. unfold pool_accounted.
    cbn [queue_ cmd_ command_pool_]. rewrite Hv.
    split; [apply Hinv | tauto].
  - rewrite exec_closed_form. unfold exec_result.
    destruct (will_submit (op_fence op) ctx).
    + unfold pool_accounted. cbn [queue_ cmd_ command_pool_].
      change (CommandBuffer_bool null_cmd) with false.
      rewrite map_app, length_app, Nat.add_comm. cbn [length Nat.add map fst
        cmd_handle]. rewrite seq_S, map_app. cbn [map Nat.add].
      destruct Hinv as [-> _]. rewrite Hh, Hp. tauto.
    + unfold pool_accounted. cbn [queue_ cmd_ command_pool_].
      unfold CommandBuffer_bool in *. cbn [cmd_handle cmd_state].
      rewrite Hv. split; [apply Hinv | tauto].
  - destruct (cleanup_call_fields c ctx H) as (_ & Hpool & Hcmd & _ & Hq & _).
    eapply pool_accounted_fields; eassumption.
Qed.

Lemma calls_pool_accounted (cs : list Call) :
  forall ctx : Context,
    Forall not_flush cs -> pool_accounted ctx -> pool_accounted (calls cs ctx).
Proof.
  induction cs as [|c cs IH]; intros ctx Hcs Hinv; [exact Hinv|].
  apply Forall_cons in Hcs as [Hc Hcs]. rewrite calls_cons.
  apply IH; [exact Hcs | apply call_pool_accounted; assumption].
Qed.

(** X2. In every context reached from a fresh one by calls defined in the
    header, the command buffers taken from the pool are accounted for: the
    k-th submission carries the k-th buffer taken, the open buffer (if any)
    is the one taken last and is recording, and without an open buffer
    [cmd_] is the null command buffer.  No buffer is taken and dropped, and
    none is submitted twice. *)
Theorem pool_buffers_accounted_for (config : ContextConfig) (cs : list Call) :
  Forall not_flush cs ->
  pool_accounted (calls cs (new_context config))
  /\ NoDup (map (fun s => cmd_handle s.1)
              (queue_ (calls cs (new_context config))))
  /\ Forall (fun s => s.1 <> cmd_ (calls cs (new_context config)))
       (queue_ (calls cs (new_context config))).
Proof.
  intros Hcs.
  assert (Hinv : pool_accounted (calls cs (new_context config))).
  { apply calls_pool_accounted; [exact Hcs|]. split; [reflexivity|].
    cbn. tauto. }
  pose proof (calls_queue_all_submitted cs (new_context config)
                ltac:(constructor)) as Hsub.
  set (ctx := calls cs (new_context config)) in *.
  split; [exact Hinv|]. split.
  - destruct Hinv as [-> _].
    apply NoDup_fmap; [intros x y; apply Nat2Z.inj | apply NoDup_seq].
  - unfold queue_all_submitted in Hsub.
    eapply Forall_impl; [exact Hsub|]. cbn. intros s Hs Heq.
    destruct Hinv as [_ Hcmd]. rewrite <- Heq in Hcmd.
    destruct (CommandBuffer_bool s.1) eqn:Hb.
    + destruct Hcmd as [Hrec _]. congruence.
    + destruct Hcmd as [Hnull _]. rewrite Hnull in Hs. discriminate.
Qed.

Lemma pool_buffers_accounted_for_witness :
  let ctx :=
    calls
      [CallOperation
         (OpCopy (mk_barrier 1 2) (ResBuffer (mk_buffer 3))
            (ResBuffer (mk_buffer 4)) (mk_uvec3 8 1 1) (mk_uvec3 0 0 0)
            (mk_uvec3 0 0 0) 9);
       CallSetCmd;
       CallRegisterBuffer (mk_buffer 5)]
      (new_context (mk_config 2)) in
  pool_accounted ctx
  /\ map (fun s => cmd_handle s.1) (queue_ ctx) = [1]
  /\ cmd_handle (cmd_ ctx) = 2.
Proof.
  intros ctx.
  destruct (pool_buffers_accounted_for (mk_config 2)
              [CallOperation
                 (OpCopy (mk_barrier 1 2) (ResBuffer (mk_buffer 3))
                    (ResBuffer (mk_buffer 4)) (mk_uvec3 8 1 1)
                    (mk_uvec3 0 0 0) (mk_uvec3 0 0 0) 9);
               CallSetCmd;
               CallRegisterBuffer (mk_buffer 5)]) as (H & _ & _).
  - repeat constructor; discriminate.
  - split; [exact H | split; reflexivity].
Defined.

(** ** Order and conservation of recorded commands *)

Lemma opened_fields (a b : Context) :
  cmd_ a = cmd_ b -> command_pool_ a = command_pool_ b -> opened a = opened b.
Proof. unfold opened. intros -> ->. reflexivity. Qed.

Lemma opened_of_valid (ctx : Context) :
  CommandBuffer_bool (cmd_ ctx) = true ->
  opened ctx = (command_pool_ ctx, cmd_ ctx).
Proof. unfold opened. intros ->. reflexivity. Qed.

Ltac rewrite_opened_valid :=
  match goal with
  | |- context [opened (mk_context ?a ?b ?c ?d ?e ?f ?g ?h ?i)] =>
      rewrite (opened_of_valid (mk_context a b c d e f g h i));
      cbn [cmd_ command_pool_ snd fst]
  end.

Lemma submitted_commands_snoc (ctx : Context) (c : CommandBuffer) (f : VkFence)
  (q : list (CommandBuffer * VkFence)) :
  q = queue_ ctx ++ [(c, f)] ->
  concat (map (fun s => cmd_recorded s.1) q)
  = submitted_commands ctx ++ cmd_recorded c.
Proof.
  intros ->. unfold submitted_commands.
  rewrite map_app, concat_app. cbn. rewrite app_nil_r. reflexivity.
Qed.

(** Submitted and pending commands together grow by what the call records. *)
Lemma call_commands_step (c : Call) (ctx : Context) :
  not_flush c ->
  submitted_commands (call c ctx) ++ cmd_recorded (opened (call c ctx)).2
  = (submitted_commands ctx ++ cmd_recorded (opened ctx).2) ++ call_commands c.
Proof.
  intros Hc. pose proof (opened_valid ctx) as Hv.
  destruct (call_cases c Hc) as [-> | [[op ->] | H]]; cbn [call call_commands].
  - rewrite set_cmd_closed_form, app_nil_r. rewrite_opened_valid.
    + reflexivity.
    + exact Hv.
  - rewrite exec_closed_form. unfold exec_result.
    destruct (will_submit (op_fence op) ctx).
    + unfold submitted_commands at 1. cbn [queue_].
      erewrite submitted_commands_snoc by reflexivity.
      unfold opened at 1. cbn [cmd_ command_pool_].
      change (CommandBuffer_bool null_cmd) with false.
      cbn [snd cmd_recorded]. rewrite app_nil_r, app_assoc. reflexivity.
    + rewrite_opened_valid.
      * cbn [snd cmd_recorded queue_]. rewrite app_assoc. reflexivity.
      * unfold CommandBuffer_bool in *. exact Hv.
  - destruct (cleanup_call_fields c ctx H) as (_ & Hpool & Hcmd & _ & Hq & _).
    rewrite (opened_fields _ ctx Hcmd Hpool).
    unfold submitted_commands. rewrite Hq.
    destruct c; try discriminate; cbn; rewrite app_nil_r; reflexivity.
Qed.

Lemma calls_commands (cs : list Call) :
  forall ctx : Context,
    Forall not_flush cs ->
    submitted_commands (calls cs ctx)
    ++ cmd_recorded (opened (calls cs ctx)).2
    = (submitted_commands ctx ++ cmd_recorded (opened ctx).2)
      ++ concat (map call_commands cs).
Proof.
  induction cs as [|c cs IH]; intros ctx Hcs.
  - cbn. rewrite app_nil_r. reflexivity.
  - apply Forall_cons in Hcs as [Hc Hcs]. rewrite calls_cons.
    rewrite (IH _ Hcs), (call_commands_step c ctx Hc). cbn [map concat].
    rewrite <- !app_assoc. reflexivity.
Qed.

(** X3. In every context reached from a fresh one by calls defined in the
    header, the commands of the submitted command buffers, taken in queue
    order, followed by the commands of the open command buffer, are exactly
    the commands of all operations called so far, in call order: batching
    neither loses, repeats nor reorders a recorded command, whatever mix of
    fenced and unfenced operations was issued. *)
Theorem recorded_commands_conserved_in_order
  (config : ContextConfig) (cs : list Call) :
  Forall not_flush cs ->
  submitted_commands (calls cs (new_context config))
  ++ cmd_recorded (cmd_ (calls cs (new_context config)))
  = concat (map call_commands cs).
Proof.
  intros Hcs.
  pose proof (calls_commands cs (new_context config) Hcs) as H.
  assert (Hinv : pool_accounted (calls cs (new_context config))).
  { apply calls_pool_accounted; [exact Hcs|]. split; [reflexivity|].
    cbn. tauto. }
  destruct (opened_accounted _ Hinv) as (_ & _ & _ & <-).
  rewrite H. reflexivity.
Qed.

Lemma recorded_commands_conserved_in_order_witness :
  let copy (f : VkFence) :=
    CallOperation
      (OpCopy (mk_barrier 1 2) (ResBuffer (mk_buffer 3))
         (ResBuffer (mk_buffer 4)) (mk_uvec3 8 1 1) (mk_uvec3 0 0 0)
         (mk_uvec3 0 0 0) f) in
  let cs := [copy 0; copy 9; CallRegisterBuffer (mk_buffer 5); copy 0] in
  let ctx := calls cs (new_context (mk_config 3)) in
  length (queue_ ctx) = 1%nat
  /\ submitted_commands ctx ++ cmd_recorded (cmd_ ctx)
     = concat (map call_commands cs).
Proof.
  intros copy cs ctx. split; [reflexivity|].
  apply (recorded_commands_conserved_in_order (mk_config 3) cs).
  repeat constructor; discriminate.
Defined.

(** ** Fences *)

Lemma will_submit_false_no_fence (f : VkFence) (ctx : Context) :
  will_submit f ctx = false ->
  (f =? VK_NULL_HANDLE) = true
  /\ wrap_uint32 (submit_count_ ctx + 1) < cmdSubmitFrequency (config_ ctx).
Proof.
  unfold will_submit. rewrite orb_false_iff, negb_false_iff, Z.leb_gt. tauto.
Qed.

Lemma call_fences_step (c : Call) (ctx : Context) :
  not_flush c ->
  signalled_fences (call c ctx) = signalled_fences ctx ++ call_fences c.
Proof.
  intros Hc.
  destruct (call_cases c Hc) as [-> | [[op ->] | H]]; cbn [call call_fences].
  - rewrite set_cmd_closed_form. unfold signalled_fences. cbn [queue_].
    rewrite app_nil_r. reflexivity.
  - rewrite exec_closed_form. unfold exec_result.
    destruct (will_submit (op_fence op) ctx) eqn:Hw.
    + unfold signalled_fences. cbn [queue_].
      rewrite map_app, List.filter_app. cbn.
      destruct (op_fence op =? VK_NULL_HANDLE); reflexivity.
    + destruct (will_submit_false_no_fence _ _ Hw) as [-> _].
      unfold signalled_fences. cbn [queue_]. rewrite app_nil_r. reflexivity.
  - destruct (cleanup_call_fields c ctx H) as (_ & _ & _ & _ & Hq & _).
    unfold signalled_fences. rewrite Hq.
    destruct c; try discriminate; cbn; rewrite app_nil_r; reflexivity.
Qed.

(** X4. Over any sequence of calls defined in the header, the non-null
    fences handed to the queue are exactly the non-null fences the
    operations were called with, in call order: every fence a caller passes
    reaches the queue once, with the submission made by that very call, and
    no other fence ever does. *)
Theorem every_fence_reaches_the_queue_once (cs : list Call) (ctx : Context) :
  Forall not_flush cs ->
  signalled_fences (calls cs ctx)
  = signalled_fences ctx ++ concat (map call_fences cs).
Proof.
  revert ctx. induction cs as [|c cs IH]; intros ctx Hcs.
  - cbn. rewrite app_nil_r. reflexivity.
  - apply Forall_cons in Hcs as [Hc Hcs]. rewrite calls_cons.
    rewrite (IH _ Hcs), (call_fences_step c ctx Hc). cbn [map concat].
    rewrite <- app_assoc. reflexivity.
Qed.

Lemma every_fence_reaches_the_queue_once_witness :
  let copy (f : VkFence) :=
    CallOperation
      (OpCopy (mk_barrier 1 2) (ResBuffer (mk_buffer 3))
         (ResBuffer (mk_buffer 4)) (mk_uvec3 8 1 1) (mk_uvec3 0 0 0)
         (mk_uvec3 0 0 0) f) in
  let cs := [copy 0; copy 0; copy 7; copy 0; copy 8] in
  map snd (queue_ (calls cs (new_context (mk_config 2)))) = [0; 7; 8]
  /\ signalled_fences (calls cs (new_context (mk_config 2))) = [7; 8].
Proof.
  intros copy cs. split; [reflexivity|].
  apply (every_fence_reaches_the_queue_once cs (new_context (mk_config 2))).
  repeat constructor; discriminate.
Defined.

(** ** The submission counter *)

Lemma call_counter_step (c : Call) (ctx : Context) :
  let T := cmdSubmitFrequency (config_ ctx) in
  not_flush c ->
  T <= UINT32_MAX ->
  0 <= submit_count_ ctx < T ->
  counter_matches_pending ctx ->
  config_ (call c ctx) = config_ ctx
  /\ 0 <= submit_count_ (call c ctx) < T
  /\ counter_matches_pending (call c ctx).
Proof.
  intros T Hc HT Hcount Hpend. pose proof (opened_valid ctx) as Hv.
  unfold counter_matches_pending in *.
  destruct (call_cases c Hc) as [-> | [[op ->] | H]]; cbn [call].
  - rewrite set_cmd_closed_form. cbn [config_ submit_count_].
    rewrite_opened_valid; [tauto | exact Hv].
  - rewrite exec_closed_form. unfold exec_result.
    destruct (will_submit (op_fence op) ctx) eqn:Hw.
    + cbn [config_ submit_count_]. unfold opened at 1.
      cbn [cmd_ command_pool_].
      change (CommandBuffer_bool null_cmd) with false.
      cbn [snd cmd_recorded]. split; [reflexivity|]. split; [lia|reflexivity].
    + destruct (will_submit_false_no_fence _ _ Hw) as [_ Hlt]. fold T in Hlt.
      assert (Hwrap : wrap_uint32 (submit_count_ ctx + 1)
                      = submit_count_ ctx + 1).
      { unfold wrap_uint32, UINT32_MAX in *. apply Z.mod_small. lia. }
      rewrite Hwrap in *. cbn [config_ submit_count_].
      rewrite_opened_valid; [|unfold CommandBuffer_bool in *; exact Hv].
      cbn [cmd_recorded]. rewrite payloads_app, payloads_op_commands.
      split; [reflexivity|]. split; lia.
  - destruct (cleanup_call_fields c ctx H)
      as (Hcfg & Hpool & Hcmd & Hcnt & _).
    rewrite (opened_fields _ ctx Hcmd Hpool), Hcfg, Hcnt. tauto.
Qed.

Lemma calls_counter (cs : list Call) :
  forall ctx : Context,
    let T := cmdSubmitFrequency (config_ ctx) in
    Forall not_flush cs ->
    T <= UINT32_MAX ->
    0 <= submit_count_ ctx < T ->
    counter_matches_pending ctx ->
    config_ (calls cs ctx) = config_ ctx
    /\ 0 <= submit_count_ (calls cs ctx) < T
    /\ counter_matches_pending (calls cs ctx).
Proof.
  induction cs as [|c cs IH]; intros ctx T Hcs HT Hcount Hpend; [tauto|].
  apply Forall_cons in Hcs as [Hc Hcs]. rewrite calls_cons.
  destruct (call_counter_step c ctx Hc HT Hcount Hpend) as (Hcfg & Hc1 & Hp1).
  specialize (IH (call c ctx)). cbn zeta in IH. rewrite Hcfg in IH.
  destruct (IH Hcs HT Hc1 Hp1) as (Hcfg' & Hc2 & Hp2).
  rewrite Hcfg'. tauto.
Qed.

(** X5. With a threshold between 1 and [UINT32_MAX], in every context
    reached from a fresh one by calls defined in the header the submission
    counter is below the threshold and equals the number of operations
    (copies and dispatches) recorded in the open command buffer, zero when
    there is none.  In particular [submit_count_++] never wraps around. *)
Theorem submit_count_below_threshold (config : ContextConfig) (cs : list Call) :
  let ctx := calls cs (new_context config) in
  1 <= cmdSubmitFrequency config <= UINT32_MAX ->
  Forall not_flush cs ->
  0 <= submit_count_ ctx < cmdSubmitFrequency config
  /\ submit_count_ ctx = Z.of_nat (payloads (cmd_recorded (cmd_ ctx)))
  /\ wrap_uint32 (submit_count_ ctx + 1) = submit_count_ ctx + 1.
Proof.
  intros ctx HT Hcs.
  destruct (calls_counter cs (new_context config) Hcs)
    as (_ & Hcount & Hpend); [cbn; lia | cbn; lia | reflexivity |].
  cbn [config_ new_context] in Hcount. fold ctx in Hcount, Hpend.
  assert (Hinv : pool_accounted ctx).
  { apply calls_pool_accounted; [exact Hcs|]. split; [reflexivity|].
    cbn. tauto. }
  destruct (opened_accounted _ Hinv) as (_ & _ & _ & Hrec).
  unfold counter_matches_pending in Hpend. rewrite Hrec in Hpend.
  split; [exact Hcount|]. split; [symmetry; exact Hpend|].
  unfold wrap_uint32, UINT32_MAX in *. apply Z.mod_small. lia.
Qed.

Lemma submit_count_below_threshold_witness :
  let copy (f : VkFence) :=
    CallOperation
      (OpCopy (mk_barrier 1 2) (ResBuffer (mk_buffer 3))
         (ResBuffer (mk_buffer 4)) (mk_uvec3 8 1 1) (mk_uvec3 0 0 0)
         (mk_uvec3 0 0 0) f) in
  let ctx :=
    calls [copy 0; copy 0; copy 9; copy 0] (new_context (mk_config 3)) in
  0 <= submit_count_ ctx < 3
  /\ submit_count_ ctx = Z.of_nat (payloads (cmd_recorded (cmd_ ctx))).
Proof.
  intros copy ctx.
  destruct (submit_count_below_threshold (mk_config 3)
              [copy 0; copy 0; copy 9; copy 0]) as (H1 & H2 & _).
  - unfold UINT32_MAX. cbn. lia.
  - repeat constructor; discriminate.
  - split; [exact H1 | exact H2].
Defined.

(** X6. With [cmdSubmitFrequency] zero the test
    [submit_count_ >= cmdSubmitFrequency] always holds: every operation,
    fenced or not, is submitted by its own call with the fence it was
    given, so [N] operations make [N] submissions, and afterwards no
    command buffer is open and the counter is zero. *)
Theorem zero_threshold_submits_every_operation
  (ops : list Operation) (ctx : Context) :
  cmdSubmitFrequency (config_ ctx) = 0 ->
  map snd (new_submissions ctx (run ops ctx)) = map op_fence ops
  /\ length (new_submissions ctx (run ops ctx)) = length ops
  /\ (ops <> [] ->
      submit_count_ (run ops ctx) = 0
      /\ CommandBuffer_bool (cmd_ (run ops ctx)) = false).
Proof.
  intros HT.
  assert (Hstep : forall op c,
             cmdSubmitFrequency (config_ c) = 0 ->
             will_submit (op_fence op) c = true).
  { intros op c Hc. apply will_submit_true. right. rewrite Hc.
    unfold wrap_uint32. apply Z.mod_pos_bound. lia. }
  assert (Hrun : forall ops c,
             cmdSubmitFrequency (config_ c) = 0 ->
             exists qs,
               queue_ (run ops c) = queue_ c ++ qs
               /\ map snd qs = map op_fence ops
               /\ (ops <> [] ->
                   submit_count_ (run ops c) = 0
                   /\ CommandBuffer_bool (cmd_ (run ops c)) = false)).
  { clear ops ctx HT. intros ops.
    induction ops as [|op ops IH] using rev_ind; intros c Hc.
    - exists []. rewrite app_nil_r. cbn. split; [reflexivity|].
      split; [reflexivity | congruence].
    - destruct (IH c Hc) as (qs & Hq & Hf & _).
      unfold run in *. rewrite foldl_app. cbn [foldl].
      fold (run ops c) in *.
      pose proof (Hstep op (run ops c)) as Hw.
      rewrite run_config in Hw. specialize (Hw Hc).
      rewrite exec_closed_form. unfold exec_result. rewrite Hw.
      cbn [queue_ submit_count_ cmd_]. eexists (qs ++ [_]).
      split; [rewrite Hq, <- app_assoc; reflexivity|].
      split; [rewrite !map_app, Hf; reflexivity|].
      intros _. split; reflexivity. }
  destruct (Hrun ops ctx HT) as (qs & Hq & Hf & Hlast).
  rewrite (new_submissions_app ctx _ qs Hq).
  split; [exact Hf|]. split; [|exact Hlast].
  rewrite <- (length_map snd qs), Hf, length_map. reflexivity.
Qed.

Lemma zero_threshold_submits_every_operation_witness :
  let copy (f : VkFence) :=
    OpCopy (mk_barrier 1 2) (ResBuffer (mk_buffer 3))
      (ResBuffer (mk_buffer 4)) (mk_uvec3 8 1 1) (mk_uvec3 0 0 0)
      (mk_uvec3 0 0 0) f in
  map snd
    (new_submissions (new_context (mk_config 0))
       (run [copy 0; copy 5; copy 0] (new_context (mk_config 0))))
  = [0; 5; 0].
Proof.
  intros copy.
  apply (zero_threshold_submits_every_operation [copy 0; copy 5; copy 0]
           (new_context (mk_config 0))).
  reflexivity.
Defined.

(** ** Mutex discipline *)

Lemma mutex_check_app (es1 es2 : list Event) :
  forall held : list Mutex,
    mutex_check held (es1 ++ es2)
    = match mutex_check held es1 with
      | Some held' => mutex_check held' es2
      | None => None
      end.
Proof.
  induction es1 as [|e es1 IH]; intros held; [reflexivity|].
  destruct e; cbn [app mutex_check]; try apply IH;
    destruct (mutex_held m held); try reflexivity; apply IH.
Qed.

Lemma mutex_check_no_mutex (es : list Event) (held : list Mutex) :
  forallb (fun e => negb (is_mutex_event e)) es = true ->
  mutex_check held es = Some held.
Proof.
  induction es as [|e es IH]; [reflexivity|].
  cbn [forallb]. rewrite andb_true_iff. intros [He Hes].
  destruct e; try discriminate; cbn [mutex_check]; apply IH, Hes.
Qed.

(** The mutex events of one operation, replayed on what the caller holds. *)
Lemma exec_mutex_check (op : Operation) (ctx : Context) (l : unique_lock) :
  caller_lock_ok l ->
  mutex_check (held_by l) (exec_events op ctx)
  = if op_fence op =? VK_NULL_HANDLE
    then match l with None => Some [] | Some _ => None end
    else Some (held_by l).
Proof.
  intros Hl. unfold exec_events. rewrite app_assoc, (app_assoc _ _ (unlock_events _)).
  rewrite <- (app_assoc (lock_events _)).
  pose proof (recording_and_submit_events_no_mutex op ctx) as Hbody.
  rewrite !mutex_check_app. unfold lock_events, unlock_events.
  destruct (op_fence op =? VK_NULL_HANDLE).
  - destruct Hl as [-> | ->]; cbn [held_by mutex_check mutex_held existsb];
      [|reflexivity].
    rewrite (mutex_check_no_mutex _ _ Hbody). reflexivity.
  - cbn [mutex_check]. rewrite (mutex_check_no_mutex _ _ Hbody). reflexivity.
Qed.

Lemma cleanup_call_mutex_check (c : Call) (ctx : Context) (l : unique_lock) :
  is_cleanup_call c = true ->
  caller_lock_ok l ->
  exists es,
    trace_ (call c ctx) = trace_ ctx ++ es
    /\ mutex_check (held_by l) es = Some (held_by l).
Proof.
  intros Hc Hl.
  assert (Hreg : forall m a,
             m <> cmd_mutex_ ->
             mutex_check (held_by l) [EvLock m; EvEmplace a; EvUnlock m]
             = Some (held_by l)).
  { intros m a Hm. destruct Hl as [-> | ->], m; try congruence; reflexivity. }
  destruct c as [|op|b|i|w|w|]; try discriminate; cbn [call].
  - eexists. split; [|apply (Hreg buffer_clearlist_mutex_); discriminate].
    cbn. rewrite <- !app_assoc. reflexivity.
  - eexists. split; [|apply (Hreg image_clearlist_mutex_); discriminate].
    cbn. rewrite <- !app_assoc. reflexivity.
  - rewrite UniformParamsBuffer_destroy_eq.
    destruct (VulkanBuffer_bool (params_vulkan_buffer_ w)).
    + eexists. split; [|apply (Hreg buffer_clearlist_mutex_); discriminate].
      cbn. rewrite <- !app_assoc. reflexivity.
    + exists []. rewrite app_nil_r. split; reflexivity.
  - eexists. split; [|apply (Hreg buffer_clearlist_mutex_); discriminate].
    cbn. rewrite <- !app_assoc. reflexivity.
Qed.

Lemma perform_mutex_step (a : Action) (st : Context * unique_lock) :
  caller_lock_ok st.2 ->
  action_allowed st.2 a = true ->
  (perform a st).2 = lock_after st.2 a
  /\ caller_lock_ok (perform a st).2
  /\ exists es,
       trace_ (perform a st).1 = trace_ st.1 ++ es
       /\ mutex_check (held_by st.2) es = Some (held_by (perform a st).2).
Proof.
  destruct st as [ctx l]. cbn [fst snd]. intros Hl Ha.
  destruct a as [c | |]; cbn [perform fst snd lock_after].
  - split; [reflexivity|]. split; [exact Hl|].
    destruct c as [|op|b|i|w|w|]; try discriminate.
    + exists (begin_events ctx). cbn [call]. rewrite set_cmd_closed_form.
      split; [reflexivity|]. apply mutex_check_no_mutex.
      unfold begin_events. destruct (CommandBuffer_bool _); reflexivity.
    + exists (exec_events op ctx). cbn [call]. split; [apply exec_trace|].
      rewrite (exec_mutex_check op ctx l Hl).
      cbn [action_allowed] in Ha.
      destruct (op_fence op =? VK_NULL_HANDLE); [|reflexivity].
      destruct l; [discriminate | reflexivity].
    + apply cleanup_call_mutex_check; [reflexivity | exact Hl].
    + apply cleanup_call_mutex_check; [reflexivity | exact Hl].
    + apply cleanup_call_mutex_check; [reflexivity | exact Hl].
    + apply cleanup_call_mutex_check; [reflexivity | exact Hl].
  - split; [reflexivity|]. split; [right; reflexivity|].
    destruct l; [discriminate|].
    exists [EvLock cmd_mutex_]. split; reflexivity.
  - split; [reflexivity|]. split; [left; reflexivity|].
    destruct Hl as [-> | ->].
    + exists []. cbn. rewrite app_nil_r. split; reflexivity.
    + exists [EvUnlock cmd_mutex_]. split; reflexivity.
Qed.

Lemma perform_all_mutex (acts : list Action) :
  forall st : Context * unique_lock,
    caller_lock_ok st.2 ->
    actions_allowed st.2 acts = true ->
    exists es,
      trace_ (perform_all acts st).1 = trace_ st.1 ++ es
      /\ mutex_check (held_by st.2) es
         = Some (held_by (perform_all acts st).2).
Proof.
  induction acts as [|a acts IH]; intros st Hl Hacts.
  - exists []. rewrite app_nil_r. split; reflexivity.
  - cbn [actions_allowed] in Hacts. apply andb_true_iff in Hacts as [Ha Hacts].
    destruct (perform_mutex_step a st Hl Ha) as (Hnext & Hl' & es1 & Ht1 & Hm1).
    rewrite <- Hnext in Hacts.
    destruct (IH (perform a st) Hl' Hacts) as (es2 & Ht2 & Hm2).
    exists (es1 ++ es2). cbn [perform_all foldl]. fold (perform_all acts).
    split.
    + unfold perform_all in *. rewrite Ht2, Ht1, <- app_assoc. reflexivity.
    + rewrite mutex_check_app, Hm1. exact Hm2.
Qed.

(** X7. A caller that follows the header's convention (operations without
    a fence only while it does not hold the dispatch lock, the dispatch
    lock not taken twice) never makes the context lock a mutex that is
    already held nor unlock one that is not: every [std::mutex] operation of
    any such sequence of calls succeeds, no call returns holding a mutex of
    its own, and the only mutex held between calls is the caller's
    dispatch lock. *)
Theorem convention_respecting_calls_never_relock
  (acts : list Action) (ctx : Context) :
  actions_allowed None acts = true ->
  mutex_check [] (new_events ctx (perform_all acts (ctx, None)).1)
  = Some (held_by (perform_all acts (ctx, None)).2).
Proof.
  intros Hacts.
  destruct (perform_all_mutex acts (ctx, None) (or_introl eq_refl) Hacts)
    as (es & Ht & Hm).
  rewrite (new_events_app ctx _ es Ht). exact Hm.
Qed.

Lemma convention_respecting_calls_never_relock_witness :
  let copy (f : VkFence) :=
    ActCall
      (CallOperation
         (OpCopy (mk_barrier 1 2) (ResBuffer (mk_buffer 3))
            (ResBuffer (mk_buffer 4)) (mk_uvec3 8 1 1) (mk_uvec3 0 0 0)
            (mk_uvec3 0 0 0) f)) in
  let acts :=
    [copy 0; ActDispatchLock; copy 9;
     ActCall (CallDestroyStorage (mk_storage_buffer 4 (mk_buffer 7)));
     ActReleaseLock; copy 0] in
  mutex_check []
    (new_events (new_context (mk_config 2))
       (perform_all acts (new_context (mk_config 2), None)).1)
  = Some [].
Proof.
  intros copy acts.
  apply (convention_respecting_calls_never_relock acts
           (new_context (mk_config 2))).
  reflexivity.
Defined.

(** X8. While the caller holds the dispatch lock, an operation locks the
    held [cmd_mutex_] again, which a [std::mutex] does not allow, if and
    only if it is called with a null fence; with a non-null fence it leaves
    all mutexes alone. *)
Theorem operation_under_dispatch_lock_relocks_iff_no_fence
  (op : Operation) (ctx : Context) :
  let locked := (dispatch_lock ctx).1 in
  (mutex_check [cmd_mutex_] (new_events locked (exec op locked)) = None
   <-> op_fence op = VK_NULL_HANDLE)
  /\ (op_fence op <> VK_NULL_HANDLE ->
      mutex_check [cmd_mutex_] (new_events locked (exec op locked))
      = Some [cmd_mutex_]).
Proof.
  cbn zeta. rewrite exec_new_events.
  pose proof (exec_mutex_check op (dispatch_lock ctx).1 (Some cmd_mutex_)
                (or_intror eq_refl)) as H.
  cbn [held_by] in H. rewrite H.
  destruct (Z.eqb_spec (op_fence op) VK_NULL_HANDLE) as [Hf | Hf].
  - split; [tauto | intros Hne; contradiction].
  - split; [|reflexivity]. split; [discriminate | intros He; contradiction].
Qed.

Lemma operation_under_dispatch_lock_relocks_iff_no_fence_witness :
  let locked := (dispatch_lock (new_context (mk_config 2))).1 in
  mutex_check [cmd_mutex_]
    (new_events locked
       (exec (OpCopy (mk_barrier 1 2) (ResBuffer (mk_buffer 3))
                (ResBuffer (mk_buffer 4)) (mk_uvec3 8 1 1) (mk_uvec3 0 0 0)
                (mk_uvec3 0 0 0) 9) locked))
  = Some [cmd_mutex_].
Proof.
  intros locked.
  apply (operation_under_dispatch_lock_relocks_iff_no_fence
           (OpCopy (mk_barrier 1 2) (ResBuffer (mk_buffer 3))
              (ResBuffer (mk_buffer 4)) (mk_uvec3 8 1 1) (mk_uvec3 0 0 0)
              (mk_uvec3 0 0 0) 9) (new_context (mk_config 2))).
  discriminate.
Defined.

(** ** Batch sizes *)

Lemma call_batches_step (c : Call) (ctx : Context) :
  let T := cmdSubmitFrequency (config_ ctx) in
  not_flush c ->
  T <= UINT32_MAX ->
  0 <= submit_count_ ctx < T ->
  counter_matches_pending ctx ->
  exists qs,
    queue_ (call c ctx) = queue_ ctx ++ qs /\ Forall (bounded_batch T) qs.
Proof.
  intros T Hc HT Hcount Hpend.
  assert (Hsame : queue_ (call c ctx) = queue_ ctx ->
                  exists qs, queue_ (call c ctx) = queue_ ctx ++ qs
                             /\ Forall (bounded_batch T) qs).
  { intros ->. exists []. rewrite app_nil_r. split; [reflexivity|constructor]. }
  destruct (call_cases c Hc) as [-> | [[op ->] | H]].
  - apply Hsame. cbn [call]. rewrite set_cmd_closed_form. reflexivity.
  - revert Hsame. cbn [call]. rewrite exec_closed_form. unfold exec_result.
    destruct (will_submit (op_fence op) ctx) eqn:Hw;
      [intros _ | intros Hsame; apply Hsame; reflexivity].
    eexists. split; [reflexivity|]. constructor; [|constructor].
    unfold bounded_batch. cbn [fst cmd_recorded].
    rewrite payloads_app, payloads_op_commands.
    unfold counter_matches_pending in Hpend. lia.
  - apply Hsame. apply (cleanup_call_fields c ctx H).
Qed.

Lemma calls_batches (cs : list Call) :
  forall ctx : Context,
    let T := cmdSubmitFrequency (config_ ctx) in
    Forall not_flush cs ->
    T <= UINT32_MAX ->
    0 <= submit_count_ ctx < T ->
    counter_matches_pending ctx ->
    exists qs,
      queue_ (calls cs ctx) = queue_ ctx ++ qs /\ Forall (bounded_batch T) qs.
Proof.
  induction cs as [|c cs IH]; intros ctx T Hcs HT Hcount Hpend.
  - exists []. rewrite app_nil_r. split; [reflexivity|constructor].
  - apply Forall_cons in Hcs as [Hc Hcs]. rewrite calls_cons.
    destruct (call_counter_step c ctx Hc HT Hcount Hpend) as (Hcfg & Hc1 & Hp1).
    destruct (call_batches_step c ctx Hc HT Hcount Hpend) as (q1 & Hq1 & Hb1).
    specialize (IH (call c ctx)). cbn zeta in IH. rewrite Hcfg in IH.
    destruct (IH Hcs HT Hc1 Hp1) as (q2 & Hq2 & Hb2).
    exists (q1 ++ q2). split.
    + rewrite Hq2, Hq1, <- app_assoc. reflexivity.
    + apply Forall_app. split; assumption.
Qed.

(** X9. With a threshold between 1 and [UINT32_MAX], every command buffer
    handed to the queue by calls defined in the header, starting from a
    fresh context, holds at least one and at most [cmdSubmitFrequency]
    operations: no empty command buffer is ever submitted and no batch
    outgrows the threshold, whatever mix of fenced and unfenced operations
    is issued. *)
Theorem submitted_batches_within_threshold
  (config : ContextConfig) (cs : list Call) :
  1 <= cmdSubmitFrequency config <= UINT32_MAX ->
  Forall not_flush cs ->
  Forall (bounded_batch (cmdSubmitFrequency config))
    (queue_ (calls cs (new_context config))).
Proof.
  intros HT Hcs.
  destruct (calls_batches cs (new_context config) Hcs) as (qs & Hq & Hb);
    [cbn; lia | cbn; lia | reflexivity |].
  rewrite Hq. exact Hb.
Qed.

Lemma submitted_batches_within_threshold_witness :
  let copy (f : VkFence) :=
    CallOperation
      (OpCopy (mk_barrier 1 2) (ResBuffer (mk_buffer 3))
         (ResBuffer (mk_buffer 4)) (mk_uvec3 8 1 1) (mk_uvec3 0 0 0)
         (mk_uvec3 0 0 0) f) in
  let ctx :=
    calls [copy 0; copy 9; copy 0; copy 0; copy 0; copy 0]
      (new_context (mk_config 3)) in
  map (fun s => payloads (cmd_recorded s.1)) (queue_ ctx) = [2%nat; 3%nat]
  /\ Forall (bounded_batch 3) (queue_ ctx).
Proof.
  intros copy ctx. split; [reflexivity|].
  apply (submitted_batches_within_threshold (mk_config 3)
           [copy 0; copy 9; copy 0; copy 0; copy 0; copy 0]).
  - unfold UINT32_MAX. cbn. lia.
  - repeat constructor; discriminate.
Defined.

(** ** Recording and cleanup are independent *)

Lemma will_submit_fields (f : VkFence) (a b : Context) :
  config_ a = config_ b -> submit_count_ a = submit_count_ b ->
  will_submit f a = will_submit f b.
Proof. unfold will_submit. intros -> ->. reflexivity. Qed.

(** X10. An operation and a cleanup call (registering a buffer or an image,
    destroying a wrapper) commute: issued in either order they leave the
    same command buffer, counter, queue, pool, cleanup lists and released
    allocations.  Registering resources for cleanup never changes when a
    batch is submitted or what it holds, and recording never changes what
    is awaiting cleanup. *)
Theorem operation_commutes_with_cleanup_call
  (c : Call) (op : Operation) (ctx : Context) :
  is_cleanup_call c = true ->
  same_state (call c (exec op ctx)) (exec op (call c ctx)).
Proof.
  intros Hc.
  destruct (cleanup_call_fields c (exec op ctx) Hc)
    as (H1 & H2 & H3 & H4 & H5 & H6 & H7 & H8).
  destruct (cleanup_call_fields c ctx Hc)
    as (G1 & G2 & G3 & G4 & G5 & G6 & G7 & G8).
  unfold same_state. rewrite H1, H2, H3, H4, H5, H6, H7, H8.
  rewrite !exec_closed_form. unfold exec_result.
  rewrite (opened_fields _ ctx G3 G2), (will_submit_fields _ _ ctx G1 G4).
  rewrite G1, G4, G5, G6, G7, G8.
  destruct (will_submit (op_fence op) ctx); cbn; tauto.
Qed.

Lemma operation_commutes_with_cleanup_call_witness :
  let op :=
    OpCopy (mk_barrier 1 2) (ResBuffer (mk_buffer 3))
      (ResBuffer (mk_buffer 4)) (mk_uvec3 8 1 1) (mk_uvec3 0 0 0)
      (mk_uvec3 0 0 0) 9 in
  let c := CallDestroyStorage (mk_storage_buffer 4 (mk_buffer 7)) in
  let ctx := new_context (mk_config 2) in
  queue_ (call c (exec op ctx)) = queue_ (exec op (call c ctx))
  /\ buffers_to_clear_ (call c (exec op ctx)) = [mk_buffer 7].
Proof.
  intros op c ctx.
  destruct (operation_commutes_with_cleanup_call c op ctx)
    as (_ & _ & _ & _ & _ & _ & Hq & _); [reflexivity|].
  split; [exact Hq | reflexivity].
Defined.

(** ** Registration through [buffer()] *)

(** X11. After the buffer of a wrapper has been registered by hand through
    [buffer()], the handle is in the cleanup list once and the wrapper is
    left moved-from.  Destroying a [UniformParamsBuffer] in that state
    changes nothing, while destroying a [StorageBuffer] in that state
    appends one more entry, which is a null buffer; neither releases
    anything, so the handle is never listed twice. *)
Theorem manual_registration_then_destruction
  (b : VulkanBuffer) (numel : Z) (ctx : Context) :
  let rp := register_params_buffer (mk_params_buffer b) ctx in
  let rs := register_storage_buffer (mk_storage_buffer numel b) ctx in
  buffers_to_clear_ rp.1 = buffers_to_clear_ ctx ++ [b]
  /\ UniformParamsBuffer_buffer rp.2 = moved_from_buffer
  /\ UniformParamsBuffer_destroy rp.2 rp.1 = rp.1
  /\ buffers_to_clear_ rs.1 = buffers_to_clear_ ctx ++ [b]
  /\ StorageBuffer_buffer rs.2 = moved_from_buffer
  /\ buffers_to_clear_ (StorageBuffer_destroy rs.2 rs.1)
     = buffers_to_clear_ ctx ++ [b; moved_from_buffer]
  /\ released_ (StorageBuffer_destroy rs.2 rs.1) = released_ ctx
  /\ released_by_buffers (buffers_to_clear_ (StorageBuffer_destroy rs.2 rs.1))
     = released_by_buffers (buffers_to_clear_ rs.1).
Proof.
  cbn zeta. repeat split; try reflexivity.
  - cbn. rewrite <- app_assoc. reflexivity.
  - cbn. unfold released_by_buffers. rewrite !omap_app. cbn.
    rewrite app_nil_r. reflexivity.
Qed.

Lemma manual_registration_then_destruction_witness :
  let rs :=
    register_storage_buffer (mk_storage_buffer 4 (mk_buffer 7))
      (new_context (mk_config 2)) in
  buffers_to_clear_ (StorageBuffer_destroy rs.2 rs.1)
  = [mk_buffer 7; moved_from_buffer].
Proof.
  intros rs.
  apply (manual_registration_then_destruction (mk_buffer 7) 4
           (new_context (mk_config 2))).
Defined.

(** ** Binding onto a populated descriptor set *)

(** X12. [detail::bind] with [n] arguments writes binding slots [0] to
    [n - 1] and no other: on a descriptor set that already has bindings,
    slot [k] below [n] ends up holding the k-th argument, every slot from
    [n] on keeps what it held, and the bind calls made before stay, in
    order, in front of the [n] new ones. *)
Theorem bind_writes_leading_slots_only
  (ds : DescriptorSet) (arguments : list Resource) (k : nat) :
  let ds' :=
    detail.bind ds (detail.index_sequence_for arguments) arguments in
  bound ds' !! k
  = (if decide (k < length arguments)%nat
     then arguments !! k else bound ds !! k)
  /\ take (length (bind_calls ds)) (bind_calls ds') = bind_calls ds
  /\ length (bind_calls ds')
     = (length (bind_calls ds) + length arguments)%nat.
Proof.
  cbn zeta. unfold detail.index_sequence_for. split; [|split].
  - rewrite bound_bind_seq.
    destruct (decide (0 <= k < 0 + length arguments)%nat) as [Hk|Hk].
    + rewrite decide_True by lia. f_equal. lia.
    + rewrite decide_False by lia. reflexivity.
  - rewrite bind_calls_bind. apply take_app_length.
  - rewrite bind_calls_bind, length_app, length_zip, length_seq. lia.
Qed.

Example bind_over_previous_bindings :
  let ds :=
    detail.bind empty_descriptor_set [0; 1; 2]%nat
      [ResBuffer (mk_buffer 1); ResBuffer (mk_buffer 2);
       ResBuffer (mk_buffer 3)] in
  let ds' :=
    detail.bind ds (detail.index_sequence_for [ResImage (mk_image 9)])
      [ResImage (mk_image 9)] in
  bound ds' !! 0%nat = Some (ResImage (mk_image 9))
  /\ bound ds' !! 2%nat = Some (ResBuffer (mk_buffer 3)).
Proof. split; reflexivity. Qed.

(** ** What a fence covers *)

(** X13. When an operation called with a non-null fence returns, nothing is
    left pending: starting from a fresh context, after any calls defined in
    the header followed by a fenced operation, no command buffer is open,
    the counter is zero, the last submission carries that fence, and the
    submitted command buffers together hold every command recorded so far,
    in call order.  The fence therefore covers all work recorded before
    it. *)
Theorem fenced_operation_leaves_nothing_pending
  (config : ContextConfig) (cs : list Call) (op : Operation) :
  let ctx := calls (cs ++ [CallOperation op]) (new_context config) in
  Forall not_flush cs ->
  op_fence op <> VK_NULL_HANDLE ->
  cmd_ ctx = null_cmd
  /\ submit_count_ ctx = 0
  /\ snd <$> last (queue_ ctx) = Some (op_fence op)
  /\ submitted_commands ctx
     = concat (map call_commands (cs ++ [CallOperation op])).
Proof.
  intros ctx Hcs Hf.
  assert (Hall : Forall not_flush (cs ++ [CallOperation op])).
  { apply Forall_app. split; [exact Hcs|]. repeat constructor. discriminate. }
  pose proof (calls_commands _ (new_context config) Hall) as Hcmds.
  fold ctx in Hcmds.
  assert (Hctx : ctx = exec op (calls cs (new_context config)))
    by (unfold ctx; rewrite calls_snoc; reflexivity).
  assert (Hw : will_submit (op_fence op) (calls cs (new_context config))
               = true) by (apply will_submit_true; left; exact Hf).
  rewrite exec_closed_form in Hctx. unfold exec_result in Hctx.
  rewrite Hw in Hctx.
  assert (Hnull : cmd_ ctx = null_cmd) by (rewrite Hctx; reflexivity).
  split; [exact Hnull|]. split; [rewrite Hctx; reflexivity|]. split.
  - rewrite Hctx. cbn [queue_]. rewrite last_snoc. reflexivity.
  - unfold opened in Hcmds at 1. rewrite Hnull in Hcmds.
    change (CommandBuffer_bool null_cmd) with false in Hcmds.
    cbn [snd cmd_recorded] in Hcmds. rewrite app_nil_r in Hcmds.
    exact Hcmds.
Qed.

Lemma fenced_operation_leaves_nothing_pending_witness :
  let copy (f : VkFence) :=
    OpCopy (mk_barrier 1 2) (ResBuffer (mk_buffer 3))
      (ResBuffer (mk_buffer 4)) (mk_uvec3 8 1 1) (mk_uvec3 0 0 0)
      (mk_uvec3 0 0 0) f in
  let cs := [CallOperation (copy 0); CallRegisterBuffer (mk_buffer 5)] in
  let ctx := calls (cs ++ [CallOperation (copy 9)]) (new_context (mk_config 5)) in
  cmd_ ctx = null_cmd
  /\ map (fun s => payloads (cmd_recorded s.1)) (queue_ ctx) = [2%nat].
Proof.
  intros copy cs ctx.
  destruct (fenced_operation_leaves_nothing_pending (mk_config 5) cs (copy 9))
    as (H & _).
  - repeat constructor; discriminate.
  - discriminate.
  - split; [exact H | reflexivity].
Defined.
